(** * Property-listing scraper: a shallow embedding of [main.py]

    The development follows the layout of the source file:

    - Python strings and the few [str] methods the program calls;
    - exceptions, parsed JSON values and the parsed document tree;
    - the external capabilities (browser driver, HTML parser, generative
      model, JSON decoder, clock) as a class of oracles;
    - the program state and a small state-and-exception monad;
    - the helpers [init_csv], [save_to_csv], [clean_html],
      [safe_generate_content] and the endpoint [scrape_current];
    - the properties of these functions.

    A Python [str] is modelled by Rocq's [string]: a character is a code
    point below 256, and [String.length] is Python's [len]. *)

From Stdlib Require Import ZArith NArith Ascii String List Lia.
From stdpp Require Import base tactics option list gmap strings.

Set Warnings "-register-all,-abstract-large-number".
#[local] Open Scope Z_scope.

(** ** Python strings *)

Module PyStr.

(** [needle in hay]. *)
Fixpoint contains (needle hay : string) : bool :=
  String.prefix needle hay ||
  match hay with
  | EmptyString => false
  | String _ rest => contains needle rest
  end.

(** [str.lower] on one character: the upper-case letters below code
    point 256 are [A-Z] and the Latin-1 capitals 192..222 without the
    multiplication sign 215; each is 32 below its lower-case letter. *)
Definition lower_char (c : ascii) : ascii :=
  let n := N_of_ascii c in
  if ((65 <=? n) && (n <=? 90))%N
     || ((192 <=? n) && (n <=? 222) && negb (n =? 215))%N
  then ascii_of_N (n + 32)
  else c.

Fixpoint lower (s : string) : string :=
  match s with
  | EmptyString => EmptyString
  | String c rest => String (lower_char c) (lower rest)
  end.

(** [str.isspace] on one character (code points below 256). *)
Definition isspace (c : ascii) : bool :=
  let n := N_of_ascii c in
  (((9 <=? n) && (n <=? 13)) || ((28 <=? n) && (n <=? 32))
   || (n =? 133) || (n =? 160))%N.

Fixpoint lstrip (s : string) : string :=
  match s with
  | EmptyString => EmptyString
  | String c rest => if isspace c then lstrip rest else s
  end.

Fixpoint rstrip (s : string) : string :=
  match s with
  | EmptyString => EmptyString
  | String c rest =>
      match rstrip rest with
      | EmptyString => if isspace c then EmptyString else String c EmptyString
      | kept => String c kept
      end
  end.

(** [s.strip()]. *)
Definition strip (s : string) : string := rstrip (lstrip s).

(** [s.replace(old, new)] for a non-empty [old]: occurrences are
    replaced left to right and do not overlap.  [skip] counts the
    characters of an occurrence that are still to be dropped. *)
Fixpoint replace_go (old new : string) (skip : nat) (s : string) : string :=
  match s with
  | EmptyString => EmptyString
  | String c rest =>
      match skip with
      | S k => replace_go old new k rest
      | O =>
          if String.prefix old s
          then new +:+ replace_go old new (Nat.pred (String.length old)) rest
          else String c (replace_go old new O rest)
      end
  end.

Definition replace (old new s : string) : string := replace_go old new O s.

(** The slice [s[:n]]. *)
Fixpoint slice_to (n : nat) (s : string) : string :=
  match n, s with
  | S k, String c rest => String c (slice_to k rest)
  | _, _ => EmptyString
  end.

(** [sep.join(parts)]. *)
Fixpoint join (sep : string) (parts : list string) : string :=
  match parts with
  | [] => EmptyString
  | [p] => p
  | p :: rest => p +:+ sep +:+ join sep rest
  end.

(** Truthiness of a string: [not s] is true for the empty string. *)
Definition nonempty (s : string) : bool :=
  match s with EmptyString => false | _ => true end.

End PyStr.

(** ** Exceptions *)

(** The exception classes the program raises, catches or lets through.
    [KeyboardInterrupt] stands for the classes below [BaseException] that
    are not below [Exception]; [LibraryError] for an [Exception] subclass
    raised by a library (driver, model client, JSON decoder). *)
Inductive exn_class :=
| KeyboardInterrupt
| PlainException
| PermissionError
| OSError
| AttributeError
| IndexError
| LibraryError (name : string)
| HTTPException (status_code : Z).

Record exn := Exn { exn_cls : exn_class; exn_text : string }.

(** [isinstance(e, Exception)]. *)
Definition is_Exception (e : exn) : bool :=
  match exn_cls e with KeyboardInterrupt => false | _ => true end.

(** [isinstance(e, PermissionError)]. *)
Definition is_PermissionError (e : exn) : bool :=
  match exn_cls e with PermissionError => true | _ => false end.

(** [str(e)]. *)
Definition str_exn (e : exn) : string := exn_text e.

(** The outcome of a computation that may raise. *)
Definition result (A : Type) : Type := exn + A.

(** ** Parsed JSON *)

(** What [json.loads] returns: [None], [bool], [int], [float] (kept as
    the text of its literal), [str], [list] and [dict]. *)
Inductive json :=
| JNull
| JBool (b : bool)
| JInt (z : Z)
| JFloat (literal : string)
| JStr (s : string)
| JArr (items : list json)
| JObj (members : gmap string json).

(** [data.get(key, default)]: only a [dict] has the method. *)
Definition py_get (data : json) (key : string) (default : json) : result json :=
  match data with
  | JObj members => inr (from_option id default (members !! key))
  | _ => inl (Exn AttributeError "object has no attribute 'get'")
  end.

(** ** The parsed document *)

(** The tree [BeautifulSoup] builds.  [NavigableString] is a text node
    that [get_text] collects; [Comment] stands for the string nodes it
    passes over (comments, declarations, doctypes). *)
Inductive node :=
| NavigableString (s : string)
| Comment (s : string)
| Tag (name : string) (contents : list node).

(** ** External capabilities *)

(** The libraries the program drives, as oracles.  A driver value is the
    state of the live browser; [inl e] is the exception a call raises. *)
Class Capabilities := {
  Driver : Type;
  WebElement : Type;
  (** [driver.find_elements(By.XPATH, xpath)] *)
  find_elements : Driver → string → result (list WebElement);
  (** [el.tag_name] *)
  tag_name : Driver → WebElement → result string;
  (** [driver.execute_script("arguments[0].click();", el)]: the page may
      change whether or not the script raises. *)
  execute_click : Driver → WebElement → result unit * Driver;
  (** [driver.current_url] and [driver.page_source] *)
  current_url : Driver → result string;
  page_source : Driver → result string;
  (** what the page has become after [ms] milliseconds left alone *)
  elapse : Driver → Z → Driver;
  (** [BeautifulSoup(raw_html, 'html.parser')]: the document's children *)
  parse_html : string → list node;
  (** [model.generate_content(prompt)] at its [n]-th invocation
      (counting from 0), and the [.text] of the response *)
  generate_content : nat → string → result string;
  (** [json.loads] *)
  json_loads : string → result json;
  (** [time.strftime("%Y-%m-%d %H:%M:%S")] at a clock value *)
  strftime : Z → string
}.

(** ** Program state *)

(** How [open(CSV_FILE, ...)] for writing fares: it succeeds, it raises
    [PermissionError] (the file is locked by another process), or it
    raises another [OSError]. *)
Inductive io_fault :=
| Writable
| Locked
| Unwritable (reason : string).

(** A row handed to [csv.writer.writerow]. *)
Definition row : Type := list json.

(** What a [print] call reports. *)
Inductive log_line :=
| LogCreatingCsv
| LogBanner
| LogCannotCreate
| LogSavedRow (agent_name : json)
| LogCannotSave
| LogCloseFile
| LogCsvError (e : exn)
| LogTokenLimit (wait : Z)
| LogScrapeStarted
| LogAnalyzing (chars : nat)
| LogError (e : exn)
| LogTraceback.

Section State.
Context `{Capabilities}.

(** What the program does to the outside, in order. *)
Inductive event :=
| EvPrint (line : log_line)
| EvSleep (ms : Z)
| EvGenerate (prompt : string)
| EvClick (page : Driver) (el : WebElement).

Record World := mkWorld {
  (** the global [driver_keeper]; [None] is Python's [None] *)
  w_driver : option Driver;
  (** the rows of the file [CSV_FILE]; [None] when it does not exist *)
  w_csv : option (list row);
  w_io : io_fault;
  (** the clock, in milliseconds *)
  w_clock : Z;
  (** how often [model.generate_content] has been invoked *)
  w_calls : nat;
  (** the events so far, oldest first *)
  w_trace : list event
}.

(** A computation: it reads and updates the world, and returns a value
    or raises. *)
Definition M (A : Type) : Type := World → result A * World.

Definition ret {A} (a : A) : M A := fun w => (inr a, w).

Definition raise {A} (e : exn) : M A := fun w => (inl e, w).

Definition bind {A B} (m : M A) (k : A → M B) : M B :=
  fun w =>
    match m w with
    | (inr a, w') => k a w'
    | (inl e, w') => (inl e, w')
    end.

#[global] Instance M_ret : MRet M := @ret.
#[global] Instance M_bind : MBind M := fun A B k m => bind m k.

(** [try: body  except ... : handler e].  The handler decides which
    classes it takes and re-raises the others. *)
Definition try_except {A} (body : M A) (handler : exn → M A) : M A :=
  fun w =>
    match body w with
    | (inl e, w') => handler e w'
    | r => r
    end.

(** A value computed without the world. *)
Definition lift {A} (r : result A) : M A := fun w => (r, w).

Definition emit (ev : event) : M unit :=
  fun w => (inr tt, mkWorld (w_driver w) (w_csv w) (w_io w) (w_clock w)
                            (w_calls w) (w_trace w ++ [ev])).

Definition print (line : log_line) : M unit := emit (EvPrint line).

(** [time.sleep]: the clock advances and the page is left alone. *)
Definition sleep (ms : Z) : M unit :=
  fun w => (inr tt, mkWorld ((fun d => elapse d ms) <$> w_driver w) (w_csv w)
                            (w_io w) (w_clock w + ms)
                            (w_calls w) (w_trace w ++ [EvSleep ms])).

End State.

(** ** Configuration *)

Definition CSV_HEADERS : list string :=
  [ "Timestamp"; "URL";
    "Agent Name"; "Agent Phone"; "Agency Name"; "Agent License";
    "Title"; "Price"; "Address"; "District";
    "Property Type"; "Tenure"; "Built Year"; "Developer";
    "Bedrooms"; "Bathrooms"; "Size (sqft)"; "Price per sqft";
    "Furnishing"; "Floor Level"; "Facilities"; "Description Summary" ].

(** The header as the row [writer.writerow(CSV_HEADERS)] writes. *)
Definition header_row : row := JStr <$> CSV_HEADERS.

(** ** The record store *)

Inductive open_mode := ModeW | ModeA.

Section RecordStore.
Context `{Capabilities}.

Definition set_csv (rows : option (list row)) (w : World) : World :=
  mkWorld (w_driver w) rows (w_io w) (w_clock w) (w_calls w) (w_trace w).

(** [os.path.exists(CSV_FILE)] *)
Definition path_exists : M bool :=
  fun w => (inr (bool_decide (is_Some (w_csv w))), w).

(** [open(CSV_FILE, mode=...)]: mode ['w'] creates or empties the file,
    mode ['a'] creates it when it is absent and keeps its rows. *)
Definition open_csv (mode : open_mode) : M unit :=
  fun w =>
    match w_io w with
    | Writable =>
        (inr tt,
         set_csv (match mode with
                  | ModeW => Some []
                  | ModeA => Some (default [] (w_csv w))
                  end) w)
    | Locked => (inl (Exn PermissionError "[Errno 13] Permission denied"), w)
    | Unwritable reason => (inl (Exn OSError reason), w)
    end.

(** [writer.writerow(r)] on the open file.  The file is taken as the
    list of its rows, each written whole on a line of its own, as
    [csv.writer] writes them; a file whose last line another program
    left without its end is outside the model. *)
Definition writerow (r : row) : M unit :=
  fun w => (inr tt, set_csv (Some (default [] (w_csv w) ++ [r])) w).

(** [time.strftime("%Y-%m-%d %H:%M:%S")] *)
Definition timestamp : M string :=
  fun w => (inr (strftime (w_clock w)), w).

Definition init_csv : M unit :=
  try_except
    (present ← path_exists;
     if negb present then
       print LogCreatingCsv;;
       open_csv ModeW;;
       writerow header_row
     else mret tt)
    (fun e =>
       if is_PermissionError e then
         print LogBanner;;
         print LogCannotCreate;;
         print LogBanner
       else raise e).

Definition save_to_csv (data : json) (url : string) : M unit :=
  try_except
    (init_csv;;
     now ← timestamp;
     agent_name ← lift (py_get data "agent_name" (JStr "N/A"));
     agent_phone ← lift (py_get data "agent_phone" (JStr "N/A"));
     agency_name ← lift (py_get data "agency_name" (JStr "N/A"));
     agent_license ← lift (py_get data "agent_license" (JStr "N/A"));
     title ← lift (py_get data "title" (JStr "N/A"));
     price ← lift (py_get data "price" (JStr "N/A"));
     address ← lift (py_get data "address" (JStr "N/A"));
     district ← lift (py_get data "district" (JStr "N/A"));
     property_type ← lift (py_get data "property_type" (JStr "N/A"));
     tenure ← lift (py_get data "tenure" (JStr "N/A"));
     built_year ← lift (py_get data "built_year" (JStr "N/A"));
     developer ← lift (py_get data "developer" (JStr "N/A"));
     bedrooms ← lift (py_get data "bedrooms" (JStr "N/A"));
     bathrooms ← lift (py_get data "bathrooms" (JStr "N/A"));
     size_sqft ← lift (py_get data "size_sqft" (JStr "N/A"));
     psf ← lift (py_get data "psf" (JStr "N/A"));
     furnishing ← lift (py_get data "furnishing" (JStr "N/A"));
     floor_level ← lift (py_get data "floor_level" (JStr "N/A"));
     facilities ← lift (py_get data "facilities" (JStr "N/A"));
     description_summary ←
       lift (py_get data "description_summary" (JStr "N/A"));
     let row_data : row :=
       [ JStr now; JStr url;
         agent_name; agent_phone; agency_name; agent_license;
         title; price; address; district;
         property_type; tenure; built_year; developer;
         bedrooms; bathrooms; size_sqft; psf;
         furnishing; floor_level; facilities; description_summary ] in
     open_csv ModeA;;
     writerow row_data;;
     saved ← lift (py_get data "agent_name" (JStr "Unknown"));
     print (LogSavedRow saved))
    (fun e =>
       if is_PermissionError e then
         print LogBanner;;
         print LogCannotSave;;
         print LogCloseFile;;
         print LogBanner
       else if is_Exception e then
         print (LogCsvError e)
       else raise e).

End RecordStore.

(** ** The HTML compressor *)

(** [for tag in soup(names): tag.decompose()].  [find_all] lists every
    tag of the document whose name is one of [names], and [decompose]
    takes each out of the tree together with everything below it; what
    is left of a node is itself without those subtrees, or nothing. *)
Fixpoint decompose_in (names : list string) (n : node) : list node :=
  match n with
  | Tag name contents =>
      if bool_decide (name ∈ names) then []
      else [Tag name (flat_map (decompose_in names) contents)]
  | _ => [n]
  end.

Definition decompose_all (names : list string) (soup : list node) : list node :=
  flat_map (decompose_in names) soup.

(** The strings [get_text] visits below a node, in document order. *)
Fixpoint all_strings (n : node) : list string :=
  match n with
  | NavigableString s => [s]
  | Comment _ => []
  | Tag _ contents => flat_map all_strings contents
  end.

(** [soup.get_text(separator=sep, strip=True)]: every string is
    stripped, the empty ones are dropped, the rest joined. *)
Definition get_text (sep : string) (soup : list node) : string :=
  PyStr.join sep
    (List.filter PyStr.nonempty (PyStr.strip <$> flat_map all_strings soup)).

Definition JUNK_TAGS : list string :=
  [ "script"; "style"; "svg"; "noscript"; "iframe"; "meta"; "link"; "input";
    "button"; "img"; "video"; "source"; "picture" ].

Definition BLOAT_TAGS : list string :=
  [ "header"; "footer"; "nav"; "aside"; "form" ].

Section Compressor.
Context `{Capabilities}.

(** [raw_html] is [None] for Python's [None]. *)
Definition clean_html (raw_html : option string) : string :=
  match raw_html with
  | None | Some EmptyString => EmptyString
  | Some markup =>
      let soup := parse_html markup in
      let soup := decompose_all JUNK_TAGS soup in
      let soup := decompose_all BLOAT_TAGS soup in
      PyStr.slice_to 25000 (get_text " " soup)
  end.

End Compressor.

(** ** The model invoker *)

Section Invoker.
Context `{Capabilities}.

(** [model.generate_content(prompt)] *)
Definition model_generate_content (prompt : string) : M string :=
  fun w =>
    (generate_content (w_calls w) prompt,
     mkWorld (w_driver w) (w_csv w) (w_io w) (w_clock w)
             (S (w_calls w)) (w_trace w ++ [EvGenerate prompt])).

(** [xs[i]] *)
Definition list_index {A} (xs : list A) (i : nat) : M A :=
  match xs !! i with
  | Some x => mret x
  | None => raise (Exn IndexError "list index out of range")
  end.

(** The test of the handler in [safe_generate_content]. *)
Definition is_quota_error (e : exn) : bool :=
  PyStr.contains "429" (str_exn e)
  || PyStr.contains "quota" (PyStr.lower (str_exn e)).

(** The [for attempt in ...] loop over the attempts still to make;
    falling out of the loop raises. *)
Fixpoint attempt_loop (wait_times : list Z) (attempts : list nat)
    (prompt : string) : M string :=
  match attempts with
  | [] =>
      raise (Exn PlainException
               "Failed to get response from Gemini (Quota Exceeded).")
  | attempt :: rest =>
      try_except
        (model_generate_content prompt)
        (fun e =>
           if is_Exception e then
             if is_quota_error e then
               wait ← list_index wait_times attempt;
               print (LogTokenLimit wait);;
               sleep (1000 * wait);;
               attempt_loop wait_times rest prompt
             else raise e
           else raise e)
  end.

Definition safe_generate_content (prompt : string) : M string :=
  let wait_times := [5; 30] in
  attempt_loop wait_times (seq 0 (length wait_times)) prompt.

End Invoker.

(** ** The endpoint *)

(** The body the endpoint answers with:
    [{"status": ..., "data": ...}]. *)
Record response_body := Body { status : string; data : json }.

Definition nl : string := String "010"%char EmptyString.
Definition dquote : string := String "034"%char EmptyString.

(** The f-string of [scrape_current]. *)
Definition build_prompt (cleaned_text : string) : string :=
  nl +:+
  "        Extract real estate parameters from this text into JSON." +:+ nl +:+
  "        If a value is missing, use " +:+ dquote +:+ "N/A" +:+ dquote +:+ "."
    +:+ nl +:+
  nl +:+
  "        Required Keys:" +:+ nl +:+
  "        agent_name, agent_phone, agency_name, agent_license," +:+ nl +:+
  "        title, price, address, district," +:+ nl +:+
  "        property_type, tenure, built_year, developer," +:+ nl +:+
  "        bedrooms, bathrooms, size_sqft, psf," +:+ nl +:+
  "        furnishing, floor_level, facilities, description_summary" +:+ nl +:+
  nl +:+
  "        Text:" +:+ nl +:+
  "        " +:+ cleaned_text +:+ nl +:+
  "        " +:+ nl +:+
  "        Return JSON only." +:+ nl +:+
  "        ".

Section Endpoint.
Context `{Capabilities}.

(** An attribute or method of [driver_keeper] that leaves the page as
    it is; on [None] the attribute access itself raises. *)
Definition on_driver {A} (f : Driver → result A) : M A :=
  fun w =>
    match w_driver w with
    | Some d => (f d, w)
    | None =>
        (inl (Exn AttributeError "'NoneType' object has no attribute"), w)
    end.

(** [driver_keeper.execute_script("arguments[0].click();", el)] *)
Definition click (el : WebElement) : M unit :=
  fun w =>
    match w_driver w with
    | Some d =>
        let '(r, d') := execute_click d el in
        (r, mkWorld (Some d') (w_csv w) (w_io w) (w_clock w) (w_calls w)
                    (w_trace w ++ [EvClick d el]))
    | None =>
        (inl (Exn AttributeError "'NoneType' object has no attribute"), w)
    end.

(** The f-string handed to [find_elements]. *)
Definition xpath_containing (key : string) : string :=
  "//*[contains(text(), '" +:+ key +:+ "')]".

(** [try: body  except: pass] *)
Definition swallow (body : M unit) : M unit :=
  try_except body (fun _ => mret tt).

(** [for el in elements: ...] *)
Fixpoint click_elements (elements : list WebElement) : M unit :=
  match elements with
  | [] => mret tt
  | el :: rest =>
      swallow
        (tag ← on_driver (fun d => tag_name d el);
         if bool_decide (PyStr.lower tag = "a") then mret tt
         else
           click el;;
           sleep 100);;
      click_elements rest
  end.

(** [for key in keywords: ...] *)
Fixpoint reveal_clicks (keywords : list string) : M unit :=
  match keywords with
  | [] => mret tt
  | key :: rest =>
      swallow
        (elements ←
           on_driver (fun d => find_elements d (xpath_containing key));
         click_elements elements);;
      reveal_clicks rest
  end.

Definition scrape_current : M response_body :=
  fun w =>
    match w_driver w with
    | None => raise (Exn (HTTPException 400) "Browser not open.") w
    | Some _ =>
        try_except
          (print LogScrapeStarted;;
           let keywords :=
             ["Show Number"; "View"; "Call"; "Contact"; "WhatsApp"] in
           reveal_clicks keywords;;
           sleep 1000;;
           url ← on_driver current_url;
           raw_html ← on_driver page_source;
           let cleaned_text := clean_html (Some raw_html) in
           print (LogAnalyzing (String.length cleaned_text));;
           let prompt := build_prompt cleaned_text in
           response ← safe_generate_content prompt;
           let json_str :=
             PyStr.strip
               (PyStr.replace "```" EmptyString
                  (PyStr.replace "```json" EmptyString response)) in
           parsed ← lift (json_loads json_str);
           save_to_csv parsed url;;
           mret (Body "success" parsed))
          (fun e =>
             if is_Exception e then
               print (LogError e);;
               print LogTraceback;;
               raise (Exn (HTTPException 500) (str_exn e))
             else raise e)
          w
    end.

End Endpoint.

(** ** The launch endpoint *)

(** What the program sets on [uc.ChromeOptions()]. *)
Record ChromeOptions := Options {
  headless : bool;
  arguments : list string
}.

(** The libraries [launch_browser] drives beyond those of a request. *)
Class Launcher `{Capabilities} := {
  (** [os.path.join(os.getcwd(), name)] *)
  cwd_join : string → string;
  (** [uc.Chrome(options=options)] *)
  Chrome : ChromeOptions → result Driver;
  (** [driver.get(url)]: the page may change whether or not it raises. *)
  driver_get : Driver → string → result unit * Driver
}.

(** The body the launch endpoint answers with: [{"message": ...}]. *)
Record launch_body := Message { message : string }.

Section Launch.
Context `{Launcher}.

(** An assignment to the global [driver_keeper]. *)
Definition set_driver (d : option Driver) : M unit :=
  fun w => (inr tt, mkWorld d (w_csv w) (w_io w) (w_clock w) (w_calls w)
                            (w_trace w)).

(** [driver_keeper.get(url)] *)
Definition navigate (url : string) : M unit :=
  fun w =>
    match w_driver w with
    | Some d =>
        let '(r, d') := driver_get d url in
        (r, mkWorld (Some d') (w_csv w) (w_io w) (w_clock w) (w_calls w)
                    (w_trace w))
    | None =>
        (inl (Exn AttributeError "'NoneType' object has no attribute"), w)
    end.

(** The first [if] of [launch_browser]: [Some body] when it returns from
    inside the [try], [None] when control goes on below it. *)
Definition probe_open_browser : M (option launch_body) :=
  fun w =>
    match w_driver w with
    | Some _ =>
        try_except
          (on_driver current_url;;
           mret (Some (Message "Browser is already open.")))
          (fun _ => set_driver None;; mret None)
          w
    | None => (inr None, w)
    end.

Definition launch_browser : M launch_body :=
  early ← probe_open_browser;
  match early with
  | Some body => mret body
  | None =>
      let profile_path := cwd_join "chrome_profile" in
      let options :=
        Options false ["--no-sandbox"; "--user-data-dir=" +:+ profile_path] in
      try_except
        (d ← lift (Chrome options);
         set_driver (Some d);;
         navigate "https://www.google.com";;
         mret (Message "Browser launched!"))
        (fun e =>
           if is_Exception e
           then raise (Exn (HTTPException 500) (str_exn e))
           else raise e)
  end.

End Launch.

(** ** A concrete browser, parser, model and decoder

    Small stand-ins for the libraries, on which the program can be run. *)

Module Fixture.

Record element := Element {
  el_tag : string;
  el_text : string;
  el_stale : bool
}.

Record page := Page {
  pg_url : string;
  pg_html : string;
  pg_elements : list element;
  (** the texts of the elements clicked so far *)
  pg_clicked : list string
}.

Definition KEYWORDS : list string :=
  ["Show Number"; "View"; "Call"; "Contact"; "WhatsApp"].

Definition fx_find_elements (p : page) (xpath : string)
    : result (list element) :=
  inr (List.filter
         (fun el =>
            existsb
              (fun key =>
                 String.eqb xpath ("//*[contains(text(), '" +:+ key +:+ "')]")
                 && PyStr.contains key (el_text el))
              KEYWORDS)
         (pg_elements p)).

Definition fx_tag_name (p : page) (el : element) : result string :=
  if el_stale el
  then inl (Exn (LibraryError "StaleElementReferenceException")
                "stale element reference")
  else inr (el_tag el).

Definition fx_execute_click (p : page) (el : element) : result unit * page :=
  (inr tt,
   Page (pg_url p) (pg_html p) (pg_elements p) (pg_clicked p ++ [el_text el])).

Definition listing_html : string :=
  "<div><p> Agent: Jane Tan </p><script>var x;</script><nav>Home</nav></div>".

Definition listing_soup : list node :=
  [ Tag "div"
      [ Tag "p" [NavigableString " Agent: Jane Tan "];
        Tag "script" [NavigableString "var x;"];
        Tag "nav" [NavigableString "Home"] ] ].

Definition fx_parse_html (markup : string) : list node :=
  if String.eqb markup listing_html then listing_soup
  else [NavigableString markup].

Definition fx_json_loads (s : string) : result json :=
  if String.eqb s "{}" then inr (JObj ∅)
  else if String.eqb s "[]" then inr (JArr [])
  else inl (Exn (LibraryError "JSONDecodeError") "Expecting value").

Definition capabilities (model : nat → string → result string)
    : Capabilities := {|
  Driver := page;
  WebElement := element;
  find_elements := fx_find_elements;
  tag_name := fx_tag_name;
  execute_click := fx_execute_click;
  current_url := fun p => inr (pg_url p);
  page_source := fun p => inr (pg_html p);
  elapse := fun p _ => p;
  parse_html := fx_parse_html;
  generate_content := model;
  json_loads := fx_json_loads;
  strftime := fun _ => "2024-05-01 10:00:00"
|}.

(** Models: one that answers with an empty object in a code fence, one
    that answers with an array, one that is always out of quota, one
    that is unreachable. *)
Definition model_object : nat → string → result string :=
  fun _ _ => inr ("```json" +:+ nl +:+ "{}" +:+ nl +:+ "```").

Definition model_array : nat → string → result string :=
  fun _ _ => inr "[]".

Definition model_out_of_quota : nat → string → result string :=
  fun _ _ =>
    inl (Exn (LibraryError "ResourceExhausted")
             "429 You exceeded your current quota").

Definition model_unreachable : nat → string → result string :=
  fun _ _ =>
    inl (Exn (LibraryError "ServiceUnavailable") "503 connection reset").

Definition show_number : element := Element "BUTTON" "Show Number" false.
Definition view_link : element := Element "A" "View all listings" false.
Definition call_span : element := Element "span" "Call agent" false.

Definition url : string := "https://example.com/listing/1".

Definition listing_page : page :=
  Page url listing_html [show_number; view_link; call_span] [].

(** The error [safe_generate_content] raises when it gives up. *)
Definition failed : exn :=
  Exn PlainException "Failed to get response from Gemini (Quota Exceeded).".

(** A parsed map with three of the keys. *)
Definition jane : gmap string json :=
  <["agent_name" := JStr "Jane Tan"]>
    (<["agent_phone" := JStr "91234567"]>
       (<["price" := JStr "$1,200,000"]> ∅)).

(** A world with the browser on the listing page and no store yet. *)
Definition world (model : nat → string → result string) (io : io_fault)
    : @World (capabilities model) :=
  @mkWorld (capabilities model) (Some listing_page) None io 0 0%nat [].

(** The same without a browser. *)
Definition world_no_browser (model : nat → string → result string)
    : @World (capabilities model) :=
  @mkWorld (capabilities model) None None Writable 0 0%nat [].

End Fixture.

(** ** A concrete launcher *)

Module LaunchFixture.

(** A fresh browser on an empty page. *)
Definition blank_page : Fixture.page := Fixture.Page "about:blank" EmptyString [] [].

Definition fx_driver_get (p : Fixture.page) (url : string)
    : result unit * Fixture.page :=
  (inr tt, Fixture.Page url EmptyString [] []).

(** A launcher whose browser starts, and one whose browser does not. *)
Definition launcher (model : nat → string → result string)
    : @Launcher (Fixture.capabilities model) :=
  @Build_Launcher (Fixture.capabilities model)
    (fun name => "/srv/app/" +:+ name)
    (fun _ => inr blank_page)
    fx_driver_get.

Definition launcher_broken (model : nat → string → result string)
    : @Launcher (Fixture.capabilities model) :=
  @Build_Launcher (Fixture.capabilities model)
    (fun name => "/srv/app/" +:+ name)
    (fun _ =>
       inl (Exn (LibraryError "WebDriverException") "cannot find Chrome binary"))
    fx_driver_get.

End LaunchFixture.

(** ** More stand-ins: other models and decoders, a dead browser *)

Module MoreFixture.

(** A model that is out of quota once and then answers. *)
Definition model_flaky : nat → string → result string :=
  fun n _ =>
    match n with
    | O => inl (Exn (LibraryError "ResourceExhausted")
                    "429 You exceeded your current quota")
    | S _ => inr "{}"
    end.

(** A model that answers in prose. *)
Definition model_prose : nat → string → result string :=
  fun _ _ => inr "Sorry, I cannot help with that.".

Definition unreachable : exn :=
  Exn (LibraryError "WebDriverException") "chrome not reachable".

(** A browser whose window was closed: every call raises. *)
Definition capabilities_dead (model : nat → string → result string)
    : Capabilities := {|
  Driver := Fixture.page;
  WebElement := Fixture.element;
  find_elements := fun _ _ => inl unreachable;
  tag_name := fun _ _ => inl unreachable;
  execute_click := fun p _ => (inl unreachable, p);
  current_url := fun _ => inl unreachable;
  page_source := fun _ => inl unreachable;
  elapse := fun p _ => p;
  parse_html := Fixture.fx_parse_html;
  generate_content := model;
  json_loads := Fixture.fx_json_loads;
  strftime := fun _ => "2024-05-01 10:00:00"
|}.

Definition world_dead (model : nat → string → result string)
    : @World (capabilities_dead model) :=
  @mkWorld (capabilities_dead model)
    (Some Fixture.listing_page) None Writable 0 0%nat [].

(** The listing page after the reveal clicks. *)
Definition revealed_page : Fixture.page :=
  Fixture.Page Fixture.url Fixture.listing_html
    [Fixture.show_number; Fixture.view_link; Fixture.call_span]
    ["Show Number"; "Call agent"].







(** The parsed map of the first fixture with a key the store does not
    read. *)
Definition jane_more : gmap string json :=
  <["listing_id" := JInt 42]> Fixture.jane.

(** A launcher whose browser starts but cannot load the start page. *)
Definition launcher_offline (model : nat → string → result string)
    : @Launcher (Fixture.capabilities model) :=
  @Build_Launcher (Fixture.capabilities model)
    (fun name => "/srv/app/" +:+ name)
    (fun _ => inr LaunchFixture.blank_page)
    (fun p _ =>
       (inl (Exn (LibraryError "WebDriverException") "net::ERR_NAME_NOT_RESOLVED"),
        p)).

End MoreFixture.

(** ** The vocabulary of the properties *)

(** The keys [save_to_csv] reads from the parsed map, in column order. *)
Definition FIELD_KEYS : list string :=
  [ "agent_name"; "agent_phone"; "agency_name"; "agent_license";
    "title"; "price"; "address"; "district";
    "property_type"; "tenure"; "built_year"; "developer";
    "bedrooms"; "bathrooms"; "size_sqft"; "psf";
    "furnishing"; "floor_level"; "facilities"; "description_summary" ].

(** What [init_csv] makes of a store: the rows and the fault. *)
Definition init_store (csv : option (list row)) (io : io_fault)
    : option (list row) :=
  match csv with
  | Some rows => Some rows
  | None =>
      match io with
      | Writable => Some [header_row]
      | _ => None
      end
  end.

(** The row [save_to_csv] builds from a map. *)
Definition record_row (now url : string) (members : gmap string json) : row :=
  JStr now :: JStr url
    :: ((fun key => from_option id (JStr "N/A") (members !! key)) <$> FIELD_KEYS).

(** The rows [save_to_csv] leaves in the store: a row is appended when the
    record is a map and the file can be opened; otherwise the store is
    what [init_csv] made of it. *)
Definition saved_store (record : json) (now url : string)
    (csv : option (list row)) (io : io_fault) : option (list row) :=
  match record, io with
  | JObj members, Writable =>
      Some (default [header_row] csv ++ [record_row now url members])
  | _, _ => init_store csv io
  end.

(** The text nodes below a node, each with the names of the tags it lies
    in, innermost first; [ancestors] are the tags around the node. *)
Fixpoint text_nodes (ancestors : list string) (n : node)
    : list (list string * string) :=
  match n with
  | NavigableString s => [(ancestors, s)]
  | Comment _ => []
  | Tag name contents => flat_map (text_nodes (name :: ancestors)) contents
  end.

(** None of the tags [ancestors] is one of [names]. *)
Definition outside (names ancestors : list string) : bool :=
  forallb (fun tag => negb (bool_decide (tag ∈ names))) ancestors.

(** A text node that lies in none of the tags [names]. *)
Definition text_outside (names : list string) (tn : list string * string)
    : bool :=
  outside names tn.1.

Section Vocabulary.
Context `{Capabilities}.

(** The world with more events at the end of its trace. *)
Definition add_trace (evs : list event) (w : World) : World :=
  mkWorld (w_driver w) (w_csv w) (w_io w) (w_clock w) (w_calls w)
          (w_trace w ++ evs).


(** An event that is a [print]. *)
Definition is_print (ev : event) : Prop :=
  match ev with EvPrint _ => True | _ => False end.

(** The world after one invocation of the model. *)
Definition invoked (prompt : string) (w : World) : World :=
  mkWorld (w_driver w) (w_csv w) (w_io w) (w_clock w)
          (S (w_calls w)) (w_trace w ++ [EvGenerate prompt]).

(** The world after the wait that follows a quota error. *)
Definition waited (wait : Z) (w : World) : World :=
  mkWorld ((fun d => elapse d (1000 * wait)) <$> w_driver w) (w_csv w)
          (w_io w) (w_clock w + 1000 * wait) (w_calls w)
          (w_trace w ++ [EvPrint (LogTokenLimit wait); EvSleep (1000 * wait)]).

(** Whatever [m] returns or raises, the world it leaves is related by
    [R] to the world it started in. *)
Definition steps {A} (R : World → World → Prop) (m : M A) : Prop :=
  ∀ w, R w (snd (m w)).

(** A click event is on an element whose tag name, read from the page
    the click is made on, is not that of a hyperlink. *)
Definition not_link_click (ev : event) : Prop :=
  match ev with
  | EvClick page el =>
      ∃ tag, tag_name page el = inr tag ∧ PyStr.lower tag ≠ "a"
  | _ => True
  end.

(** [w'] has the trace of [w] and, after it, only events of [P]. *)
Definition extends_with (P : event → Prop) (w w' : World) : Prop :=
  ∃ evs, w_trace w' = w_trace w ++ evs ∧ Forall P evs.

(** The store is as it was. *)
Definition keeps_store (w w' : World) : Prop :=
  w_csv w' = w_csv w ∧ w_io w' = w_io w.



End Vocabulary.

(** ** More vocabulary: the store, the tree, the request *)

(** The names of the tags of a tree, in document order. *)
Fixpoint tag_names (n : node) : list string :=
  match n with
  | Tag name contents => name :: flat_map tag_names contents
  | _ => []
  end.

(** The last character of a string. *)
Fixpoint last_char (s : string) : option ascii :=
  match s with
  | EmptyString => None
  | String c EmptyString => Some c
  | String _ rest => last_char rest
  end.

(** The first character of a string. *)
Definition first_char (s : string) : option ascii :=
  match s with
  | EmptyString => None
  | String c _ => Some c
  end.

(** A character, if there is one, that is not white space. *)
Definition not_space_at (c : option ascii) : Prop :=
  match c with
  | Some c => PyStr.isspace c = false
  | None => True
  end.

(** The text [scrape_current] hands to [json.loads] for a response. *)
Definition json_text (response : string) : string :=
  PyStr.strip
    (PyStr.replace "```" EmptyString
       (PyStr.replace "```json" EmptyString response)).

Section MoreVocabulary.
Context `{Capabilities}.


(** The model was not invoked and a browser that was there still is. *)
Definition browser_kept (w w' : World) : Prop :=
  w_calls w' = w_calls w
  ∧ (is_Some (w_driver w) → is_Some (w_driver w')).

(** The model was invoked only with the prompt built from some page. *)
Definition prompt_from_page (ev : event) : Prop :=
  match ev with
  | EvGenerate prompt =>
      ∃ raw_html, prompt = build_prompt (clean_html (Some raw_html))
  | _ => True
  end.

(** The model was invoked with no other prompt than [prompt]. *)
Definition only_prompt (prompt : string) (ev : event) : Prop :=
  match ev with
  | EvGenerate p => p = prompt
  | _ => True
  end.

(** The world in which a request reads the page: after the first
    [print], the reveal clicks and the wait of one second. *)
Definition after_reveal (w : World) : World :=
  snd ((print LogScrapeStarted;;
        reveal_clicks ["Show Number"; "View"; "Call"; "Contact"; "WhatsApp"];;
        sleep 1000) w).

(** The [try] block of [scrape_current] from the reading of the URL
    on, and its [except] clause. *)
Definition read_page_and_extract : M response_body :=
  url ← on_driver current_url;
  raw_html ← on_driver page_source;
  let cleaned_text := clean_html (Some raw_html) in
  print (LogAnalyzing (String.length cleaned_text));;
  let prompt := build_prompt cleaned_text in
  response ← safe_generate_content prompt;
  parsed ← lift (json_loads (json_text response));
  save_to_csv parsed url;;
  mret (Body "success" parsed).

Definition request_handler (e : exn) : M response_body :=
  if is_Exception e then
    print (LogError e);;
    print LogTraceback;;
    raise (Exn (HTTPException 500) (str_exn e))
  else raise e.

End MoreVocabulary.

Section LaunchVocabulary.
Context `{Launcher}.

(** The world with another value of [driver_keeper]. *)
Definition with_driver (d : option Driver) (w : World) : World :=
  mkWorld d (w_csv w) (w_io w) (w_clock w) (w_calls w) (w_trace w).

(** The options [launch_browser] starts Chrome with. *)
Definition launch_options : ChromeOptions :=
  Options false
    ["--no-sandbox"; "--user-data-dir=" +:+ cwd_join "chrome_profile"].

(** There is no browser to reuse: no handle, or one whose page does not
    answer the probe. *)
Definition no_live_browser (w : World) : Prop :=
  w_driver w = None
  ∨ ∃ d e, w_driver w = Some d ∧ current_url d = inl e.

End LaunchVocabulary.

(** * Properties *)

(** ** The record store *)

Section RecordStoreFacts.
Context `{Capabilities}.

(** [init_csv] in full: its outcome and the world it leaves. *)
Lemma init_csv_run w :
  init_csv w =
  match w_csv w with
  | Some _ => (inr tt, w)
  | None =>
      match w_io w with
      | Writable =>
          (inr tt,
           set_csv (Some [header_row]) (add_trace [EvPrint LogCreatingCsv] w))
      | Locked =>
          (inr tt,
           add_trace [EvPrint LogCreatingCsv; EvPrint LogBanner;
                      EvPrint LogCannotCreate; EvPrint LogBanner] w)
      | Unwritable reason =>
          (inl (Exn OSError reason), add_trace [EvPrint LogCreatingCsv] w)
      end
  end.
Proof.
  destruct w as [d [rows|] [| |reason] clock calls trace];
    cbv [init_csv try_except mbind mret M_bind M_ret bind ret raise
         path_exists print emit open_csv writerow set_csv add_trace
         is_PermissionError];
    simpl; rewrite <- ?app_assoc; reflexivity.
Qed.

Lemma init_csv_store w :
  w_csv (snd (init_csv w)) = init_store (w_csv w) (w_io w)
  ∧ w_io (snd (init_csv w)) = w_io w.
Proof.
  rewrite init_csv_run.
  destruct w as [d [rows|] [| |reason] clock calls trace]; split; reflexivity.
Qed.

Lemma init_store_idem csv io :
  init_store (init_store csv io) io = init_store csv io.
Proof. destruct csv, io; reflexivity. Qed.

Lemma init_csv_iter_store n w :
  w_csv (Nat.iter (S n) (fun w => snd (init_csv w)) w)
    = init_store (w_csv w) (w_io w)
  ∧ w_io (Nat.iter (S n) (fun w => snd (init_csv w)) w) = w_io w.
Proof.
  induction n as [|n [IHcsv IHio]].
  - apply init_csv_store.
  - change (Nat.iter (S (S n)) ?f w) with (f (Nat.iter (S n) f w)).
    destruct (init_csv_store (Nat.iter (S n) (fun w => snd (init_csv w)) w))
      as [Hcsv Hio].
    rewrite Hcsv, Hio, IHcsv, IHio. split; [apply init_store_idem | done].
Qed.

(** C9: [init_csv] creates the file with exactly the header row when it
    is absent and can be opened, leaves an existing file as it is, and
    calling it any number of times leaves the store as one call does. *)
Theorem init_csv_idempotent w :
  let once := snd (init_csv w) in
  w_csv once =
    match w_csv w with
    | Some rows => Some rows
    | None =>
        match w_io w with
        | Writable => Some [header_row]
        | _ => None
        end
    end
  ∧ w_io once = w_io w
  ∧ ∀ n, w_csv (Nat.iter (S n) (fun w => snd (init_csv w)) w) = w_csv once
         ∧ w_io (Nat.iter (S n) (fun w => snd (init_csv w)) w) = w_io once.
Proof.
  cbv zeta. destruct (init_csv_store w) as [Hcsv Hio].
  split; [exact Hcsv|]. split; [exact Hio|].
  intros n. rewrite Hcsv, Hio. apply init_csv_iter_store.
Qed.

End RecordStoreFacts.

Section SaveFacts.
Context `{Capabilities}.

Ltac run_save :=
  cbv [save_to_csv try_except mbind mret M_bind M_ret bind ret raise lift
       timestamp print emit open_csv writerow set_csv add_trace py_get
       is_PermissionError is_Exception exn_cls];
  simpl.

(** [save_to_csv] in full. *)
Lemma save_to_csv_run record url w :
  ∃ evs,
    save_to_csv record url w =
    (inr tt,
     mkWorld (w_driver w)
             (saved_store record (strftime (w_clock w)) url (w_csv w) (w_io w))
             (w_io w) (w_clock w) (w_calls w) (w_trace w ++ evs))
    ∧ Forall is_print evs.
Proof.
  unfold save_to_csv, try_except at 1, mbind, M_bind, bind at 1.
  rewrite init_csv_run.
  destruct w as [d [rows|] [| |reason] clock calls trace];
    destruct record; run_save;
    rewrite <- ?app_assoc; simpl;
    try (eexists; split; [reflexivity | repeat constructor]).
  all: exists []; rewrite app_nil_r; split; [reflexivity | constructor].
Qed.

End SaveFacts.

Section SaveClaims.
Context `{Capabilities}.


End SaveClaims.

(** ** The HTML compressor *)

Lemma slice_to_length n s :
  String.length (PyStr.slice_to n s) = Nat.min n (String.length s).
Proof.
  revert s. induction n as [|n IH]; intros [|c s]; simpl; try reflexivity.
  f_equal. apply IH.
Qed.

Lemma slice_to_prefix n s : String.prefix (PyStr.slice_to n s) s = true.
Proof.
  revert s. induction n as [|n IH]; intros [|c s]; simpl; try reflexivity.
  destruct (ascii_dec c c); [apply IH | congruence].
Qed.

Section CompressorBound.
Context `{Capabilities}.

(** C6: the output of [clean_html] never exceeds 25,000 characters; for
    non-empty markup it is the first 25,000 characters of the collapsed
    text (all of it when the text is shorter), cut wherever that falls. *)
Theorem clean_html_bounded :
  (∀ raw_html, (String.length (clean_html raw_html) ≤ 25000)%nat)
  ∧ ∀ c rest,
      let text :=
        get_text " "
          (decompose_all BLOAT_TAGS
             (decompose_all JUNK_TAGS (parse_html (String c rest)))) in
      clean_html (Some (String c rest)) = PyStr.slice_to 25000 text
      ∧ String.prefix (clean_html (Some (String c rest))) text = true
      ∧ String.length (clean_html (Some (String c rest)))
          = Nat.min 25000 (String.length text).
Proof.
  split.
  - intros [[|c rest]|]; unfold clean_html;
      try (cbn [String.length]; apply Nat.le_0_l).
    rewrite slice_to_length. apply Nat.le_min_l.
  - intros c rest text. unfold clean_html. fold text.
    split; [reflexivity|].
    split; [apply slice_to_prefix | apply slice_to_length].
Qed.

End CompressorBound.

(** Induction on a document tree, with the hypothesis for every child. *)
Lemma node_nested_ind (P : node → Prop) :
  (∀ s, P (NavigableString s)) →
  (∀ s, P (Comment s)) →
  (∀ name contents, Forall P contents → P (Tag name contents)) →
  ∀ n, P n.
Proof.
  intros Hstr Hcom Htag. fix IH 1. intros [s|s|name contents].
  - apply Hstr.
  - apply Hcom.
  - apply Htag. induction contents as [|child rest IHrest].
    + constructor.
    + constructor; [apply IH | exact IHrest].
Qed.

Lemma flat_map_ext_Forall {A B} (f g : A → list B) (l : list A) :
  Forall (fun a => f a = g a) l → flat_map f l = flat_map g l.
Proof. induction 1 as [|a l Ha _ IH]; simpl; [done | by rewrite Ha, IH]. Qed.

Lemma filter_flat_map {A B} (p : B → bool) (f : A → list B) (l : list A) :
  List.filter p (flat_map f l) = flat_map (fun a => List.filter p (f a)) l.
Proof.
  induction l as [|a l IH]; simpl; [done|].
  by rewrite List.filter_app, IH.
Qed.

Lemma flat_map_nil {A B} (f : A → list B) (l : list A) :
  Forall (fun a => f a = []) l → flat_map f l = [].
Proof. induction 1 as [|a l Ha _ IH]; simpl; [done | by rewrite Ha, IH]. Qed.

Lemma fmap_flat_map {A B C} (g : B → C) (f : A → list B) (l : list A) :
  g <$> flat_map f l = flat_map (fun a => g <$> f a) l.
Proof.
  induction l as [|a l IH]; simpl; [done|].
  by rewrite fmap_app, IH.
Qed.

Lemma flat_map_flat_map {A B C} (g : B → list C) (f : A → list B) (l : list A) :
  flat_map g (flat_map f l) = flat_map (fun a => flat_map g (f a)) l.
Proof.
  induction l as [|a l IH]; simpl; [done|].
  by rewrite flat_map_app, IH.
Qed.

(** The strings [get_text] visits are the text nodes of the tree. *)
Lemma all_strings_text_nodes n ancestors :
  all_strings n = snd <$> text_nodes ancestors n.
Proof.
  revert ancestors. induction n as [s|s|name contents IH] using node_nested_ind;
    intros ancestors; simpl; try reflexivity.
  rewrite fmap_flat_map. apply flat_map_ext_Forall.
  eapply Forall_impl; [exact IH|]. intros child Hchild. apply Hchild.
Qed.

(** Below a tag that is one of [names] no text node is outside. *)
Lemma text_nodes_inside names n ancestors :
  outside names ancestors = false →
  List.filter (text_outside names) (text_nodes ancestors n) = [].
Proof.
  revert ancestors. induction n as [s|s|name contents IH] using node_nested_ind;
    intros ancestors Hanc; simpl.
  - unfold text_outside. simpl. by rewrite Hanc.
  - reflexivity.
  - rewrite filter_flat_map. apply flat_map_nil.
    eapply Forall_impl; [exact IH|]. intros child Hchild. apply Hchild.
    simpl. rewrite Hanc. apply andb_false_r.
Qed.

(** Decomposing the tags [names] keeps the text nodes outside them. *)
Lemma text_nodes_decompose_in names n ancestors :
  outside names ancestors = true →
  flat_map (text_nodes ancestors) (decompose_in names n)
  = List.filter (text_outside names) (text_nodes ancestors n).
Proof.
  revert ancestors. induction n as [s|s|name contents IH] using node_nested_ind;
    intros ancestors Hanc.
  - simpl. unfold text_outside. simpl. by rewrite Hanc.
  - reflexivity.
  - cbn [decompose_in text_nodes]. case_bool_decide as Hname.
    + simpl. symmetry. rewrite filter_flat_map. apply flat_map_nil.
      apply Forall_forall. intros child _. apply text_nodes_inside.
      simpl. rewrite bool_decide_eq_true_2 by done. reflexivity.
    + cbn [flat_map text_nodes]. rewrite app_nil_r.
      rewrite flat_map_flat_map, filter_flat_map.
      apply flat_map_ext_Forall.
      eapply Forall_impl; [exact IH|]. intros child Hchild. apply Hchild.
      simpl. rewrite bool_decide_eq_false_2 by done. exact Hanc.
Qed.

Lemma text_nodes_decompose_all names soup :
  flat_map (text_nodes []) (decompose_all names soup)
  = List.filter (text_outside names) (flat_map (text_nodes []) soup).
Proof.
  unfold decompose_all. rewrite flat_map_flat_map, filter_flat_map.
  apply flat_map_ext_Forall, Forall_forall. intros n _.
  by apply text_nodes_decompose_in.
Qed.

Lemma outside_app names1 names2 ancestors :
  outside (names1 ++ names2) ancestors
  = outside names1 ancestors && outside names2 ancestors.
Proof.
  induction ancestors as [|tag ancestors IH]; simpl; [done|].
  rewrite IH.
  assert (bool_decide (tag ∈ names1 ++ names2)
          = bool_decide (tag ∈ names1) || bool_decide (tag ∈ names2)) as ->.
  { rewrite <- bool_decide_or. apply bool_decide_ext, elem_of_app. }
  destruct (bool_decide (tag ∈ names1)), (bool_decide (tag ∈ names2)),
    (outside names1 ancestors), (outside names2 ancestors); reflexivity.
Qed.

Lemma filter_filter_andb {A} (p q : A → bool) (l : list A) :
  List.filter q (List.filter p l) = List.filter (fun a => p a && q a) l.
Proof.
  induction l as [|a l IH]; simpl; [done|].
  destruct (p a); simpl; [destruct (q a)|]; by rewrite IH.
Qed.

Lemma outside_not_elem names ancestors tag :
  outside names ancestors = true → tag ∈ names → tag ∉ ancestors.
Proof.
  intros Hout Hname Hanc. unfold outside in Hout.
  rewrite forallb_forall in Hout.
  apply list_elem_of_In, Hout in Hanc.
  by rewrite bool_decide_eq_true_2 in Hanc.
Qed.

Section CompressorContent.
Context `{Capabilities}.

(** C7: for non-empty markup the output of [clean_html] is made from
    the text nodes of the parsed document that lie in none of the
    removed tags, and from no other: in particular none of them lies
    below a [script], [style], [nav] or [footer] tag.  For [None] and
    for the empty string the output is empty, whatever the parser. *)
Theorem clean_html_drops_chrome :
  clean_html None = EmptyString
  ∧ clean_html (Some EmptyString) = EmptyString
  ∧ ∀ c rest,
      let kept :=
        List.filter (text_outside (JUNK_TAGS ++ BLOAT_TAGS))
          (flat_map (text_nodes []) (parse_html (String c rest))) in
      clean_html (Some (String c rest))
        = PyStr.slice_to 25000
            (PyStr.join " "
               (List.filter PyStr.nonempty
                  ((fun tn => PyStr.strip tn.2) <$> kept)))
      ∧ Forall (fun tn : list string * string =>
                  ∀ tag, tag ∈ ["script"; "style"; "nav"; "footer"] →
                         tag ∉ tn.1)
               kept.
Proof.
  split; [reflexivity|]. split; [reflexivity|].
  intros c rest kept. split.
  - unfold clean_html, get_text.
    set (soup := decompose_all _ (decompose_all _ _)).
    rewrite (flat_map_ext_Forall all_strings (fun n => snd <$> text_nodes [] n))
      by (apply Forall_forall; intros n _; apply all_strings_text_nodes).
    rewrite <- fmap_flat_map. subst soup.
    rewrite !text_nodes_decompose_all, filter_filter_andb.
    rewrite <- list_fmap_compose.
    do 3 f_equal. subst kept. change (PyStr.strip ∘ snd) with
      (fun tn : list string * string => PyStr.strip tn.2).
    f_equal. apply List.filter_ext.
    intros [ancestors s]. symmetry.
    exact (outside_app JUNK_TAGS BLOAT_TAGS ancestors).
  - subst kept. apply Forall_forall. intros tn Htn tag Htag.
    apply list_elem_of_In, List.filter_In in Htn as [_ Hout].
    apply (outside_not_elem (JUNK_TAGS ++ BLOAT_TAGS)); [exact Hout|].
    revert tag Htag. apply Forall_forall.
    apply (bool_decide_unpack _). vm_compute. reflexivity.
Qed.

End CompressorContent.

(** ** The model invoker *)

Section InvokerFacts.
Context `{Capabilities}.

(** A successful invocation ends the loop. *)
Lemma attempt_loop_success wait_times attempt rest prompt w response :
  generate_content (w_calls w) prompt = inr response →
  attempt_loop wait_times (attempt :: rest) prompt w
  = (inr response, invoked prompt w).
Proof.
  intros Hgen. cbn [attempt_loop].
  unfold try_except, model_generate_content. rewrite Hgen. reflexivity.
Qed.

(** An error that is not a quota error leaves the loop at once. *)
Lemma attempt_loop_other wait_times attempt rest prompt w e :
  generate_content (w_calls w) prompt = inl e →
  is_quota_error e = false →
  attempt_loop wait_times (attempt :: rest) prompt w
  = (inl e, invoked prompt w).
Proof.
  intros Hgen Hquota. cbn [attempt_loop].
  unfold try_except, model_generate_content. rewrite Hgen, Hquota.
  destruct (is_Exception e); reflexivity.
Qed.

(** A quota error waits and goes on with the attempts that are left. *)
Lemma attempt_loop_quota wait_times attempt rest prompt w e wait :
  generate_content (w_calls w) prompt = inl e →
  is_Exception e = true →
  is_quota_error e = true →
  wait_times !! attempt = Some wait →
  attempt_loop wait_times (attempt :: rest) prompt w
  = attempt_loop wait_times rest prompt (waited wait (invoked prompt w)).
Proof.
  intros Hgen Hexc Hquota Hwait. cbn [attempt_loop].
  unfold try_except, model_generate_content. rewrite Hgen, Hexc, Hquota.
  unfold list_index. rewrite Hwait.
  cbv [mbind mret M_bind M_ret bind ret print emit sleep waited invoked].
  cbn [w_driver w_csv w_io w_clock w_calls w_trace].
  rewrite <- app_assoc. reflexivity.
Qed.

(** C3: an error of the model whose text holds neither ["429"] nor, in
    any case of letters, ["quota"] is raised again as it is, after the
    one invocation that failed, with no wait and no further attempt. *)
Theorem safe_generate_content_propagates prompt w e :
  generate_content (w_calls w) prompt = inl e →
  PyStr.contains "429" (str_exn e) = false →
  PyStr.contains "quota" (PyStr.lower (str_exn e)) = false →
  safe_generate_content prompt w
  = (inl e,
     mkWorld (w_driver w) (w_csv w) (w_io w) (w_clock w)
             (S (w_calls w)) (w_trace w ++ [EvGenerate prompt])).
Proof.
  intros Hgen H429 Hquota. unfold safe_generate_content. cbn [length seq].
  apply attempt_loop_other; [exact Hgen|].
  unfold is_quota_error. by rewrite H429, Hquota.
Qed.

(** C2 (the code as it runs): when every invocation of the model fails
    with a quota error, [safe_generate_content] invokes the model
    twice, waits 5 seconds after the first failure and 30 seconds after
    the second, and then raises its own error without a third
    invocation. *)
Theorem safe_generate_content_out_of_quota prompt w :
  (∀ n, ∃ e, generate_content n prompt = inl e
             ∧ is_Exception e = true ∧ is_quota_error e = true) →
  safe_generate_content prompt w
  = (inl (Exn PlainException
            "Failed to get response from Gemini (Quota Exceeded)."),
     mkWorld ((fun d => elapse (elapse d 5000) 30000) <$> w_driver w)
             (w_csv w) (w_io w) (w_clock w + 5000 + 30000)
             (S (S (w_calls w)))
             (w_trace w
                ++ [ EvGenerate prompt;
                     EvPrint (LogTokenLimit 5); EvSleep 5000;
                     EvGenerate prompt;
                     EvPrint (LogTokenLimit 30); EvSleep 30000 ])).
Proof.
  intros Hfail. unfold safe_generate_content. cbn [length seq].
  destruct (Hfail (w_calls w)) as (e0 & Hgen0 & Hexc0 & Hquota0).
  rewrite (attempt_loop_quota _ _ _ _ _ e0 5) by done.
  destruct (Hfail (S (w_calls w))) as (e1 & Hgen1 & Hexc1 & Hquota1).
  rewrite (attempt_loop_quota _ _ _ _ _ e1 30) by done.
  cbn [attempt_loop]. unfold raise, waited, invoked.
  cbn [w_driver w_csv w_io w_clock w_calls w_trace].
  rewrite <- !app_assoc. cbn [app].
  destruct (w_driver w); reflexivity.
Qed.

End InvokerFacts.

(** ** Computations that move the world along a preorder *)

Section Steps.
Context `{Capabilities}.
Variable R : World → World → Prop.
Hypothesis R_refl : ∀ w, R w w.
Hypothesis R_trans : ∀ w1 w2 w3, R w1 w2 → R w2 w3 → R w1 w3.

Lemma steps_ret {A} (a : A) : steps R (mret a).
Proof. intros w. apply R_refl. Qed.

Lemma steps_raise {A} (e : exn) : steps R (raise (A:=A) e).
Proof. intros w. apply R_refl. Qed.

Lemma steps_lift {A} (r : result A) : steps R (lift r).
Proof. intros w. apply R_refl. Qed.

Lemma steps_bind {A B} (m : M A) (k : A → M B) :
  steps R m → (∀ a, steps R (k a)) → steps R (m ≫= k).
Proof.
  intros Hm Hk w. unfold mbind, M_bind, bind.
  specialize (Hm w). destruct (m w) as [[e|a] w1]; [exact Hm|].
  eapply R_trans; [exact Hm | apply Hk].
Qed.

Lemma steps_try {A} (body : M A) (handler : exn → M A) :
  steps R body → (∀ e, steps R (handler e)) → steps R (try_except body handler).
Proof.
  intros Hbody Hhandler w. unfold try_except.
  specialize (Hbody w). destruct (body w) as [[e|a] w1]; [|exact Hbody].
  eapply R_trans; [exact Hbody | apply Hhandler].
Qed.

Lemma steps_on_driver {A} (f : Driver → result A) : steps R (on_driver f).
Proof. intros w. unfold on_driver. destruct (w_driver w); apply R_refl. Qed.

Lemma steps_list_index {A} (xs : list A) i : steps R (list_index xs i).
Proof.
  unfold list_index. destruct (xs !! i); [apply steps_ret | apply steps_raise].
Qed.

Lemma steps_swallow (body : M unit) : steps R body → steps R (swallow body).
Proof. intros Hbody. apply steps_try; [exact Hbody|]. intros _. apply steps_ret. Qed.

(** The steps R of the program, given those of its primitives. *)
Hypothesis steps_print : ∀ line, steps R (print line).
Hypothesis steps_sleep : ∀ ms, steps R (sleep ms).
Hypothesis steps_generate : ∀ prompt, steps R (model_generate_content prompt).
Hypothesis steps_save : ∀ record url, steps R (save_to_csv record url).
Hypothesis steps_click_elements : ∀ elements, steps R (click_elements elements).

Lemma steps_attempt_loop wait_times attempts prompt :
  steps R (attempt_loop wait_times attempts prompt).
Proof.
  induction attempts as [|attempt rest IH]; cbn [attempt_loop].
  - apply steps_raise.
  - apply steps_try; [apply steps_generate|]. intros e.
    destruct (is_Exception e); [|apply steps_raise].
    destruct (is_quota_error e); [|apply steps_raise].
    apply steps_bind; [apply steps_list_index|]. intros wait.
    apply steps_bind; [apply steps_print|]. intros _.
    apply steps_bind; [apply steps_sleep|]. intros _. exact IH.
Qed.

Lemma steps_reveal_clicks keywords : steps R (reveal_clicks keywords).
Proof.
  induction keywords as [|key rest IH]; cbn [reveal_clicks].
  - apply steps_ret.
  - apply steps_bind; [|intros _; exact IH].
    apply steps_swallow, steps_bind; [apply steps_on_driver|].
    intros elements. apply steps_click_elements.
Qed.

Lemma steps_scrape_current : steps R scrape_current.
Proof.
  intros w. unfold scrape_current.
  destruct (w_driver w); [|apply R_refl].
  revert w. apply steps_try.
  - apply steps_bind; [apply steps_print|]. intros _.
    apply steps_bind; [apply steps_reveal_clicks|]. intros _.
    apply steps_bind; [apply steps_sleep|]. intros _.
    apply steps_bind; [apply steps_on_driver|]. intros url.
    apply steps_bind; [apply steps_on_driver|]. intros raw_html.
    apply steps_bind; [apply steps_print|]. intros _.
    apply steps_bind; [apply steps_attempt_loop|]. intros response.
    apply steps_bind; [apply steps_lift|]. intros parsed.
    apply steps_bind; [apply steps_save|]. intros _.
    apply steps_ret.
  - intros e. destruct (is_Exception e); [|apply steps_raise].
    apply steps_bind; [apply steps_print|]. intros _.
    apply steps_bind; [apply steps_print|]. intros _.
    apply steps_raise.
Qed.

End Steps.

(** ** The reveal clicks *)

Section RevealFacts.
Context `{Capabilities}.

Lemma extends_with_refl P w : extends_with P w w.
Proof. exists []. split; [by rewrite app_nil_r | constructor]. Qed.

Lemma extends_with_trans P w1 w2 w3 :
  extends_with P w1 w2 → extends_with P w2 w3 → extends_with P w1 w3.
Proof.
  intros (evs1 & Htr1 & Hall1) (evs2 & Htr2 & Hall2).
  exists (evs1 ++ evs2). split.
  - by rewrite Htr2, Htr1, app_assoc.
  - by apply Forall_app.
Qed.

Lemma extends_print P line :
  (∀ l, P (EvPrint l)) → steps (extends_with P) (print line).
Proof. intros HP w. exists [EvPrint line]. split; [done | by constructor]. Qed.

Lemma extends_sleep P ms :
  (∀ n, P (EvSleep n)) → steps (extends_with P) (sleep ms).
Proof. intros HP w. exists [EvSleep ms]. split; [done | by constructor]. Qed.

Lemma extends_generate P prompt :
  (∀ p, P (EvGenerate p)) →
  steps (extends_with P) (model_generate_content prompt).
Proof. intros HP w. exists [EvGenerate prompt]. split; [done | by constructor]. Qed.

Lemma extends_save P record url :
  (∀ l, P (EvPrint l)) → steps (extends_with P) (save_to_csv record url).
Proof.
  intros HP w. destruct (save_to_csv_run record url w) as (evs & Hrun & Hprints).
  rewrite Hrun. exists evs. split; [done|].
  eapply Forall_impl; [exact Hprints|].
  intros [l| | |]; simpl; [intros _; apply HP | done..].
Qed.

(** One element of the loop: the tag name is read, and the click is
    made on the same page when the name is not that of a hyperlink. *)
Lemma click_one_not_link el :
  steps (extends_with not_link_click)
    (swallow
       (tag ← on_driver (fun d => tag_name d el);
        if bool_decide (PyStr.lower tag = "a") then mret tt
        else click el;; sleep 100)).
Proof.
  intros w.
  cbv [swallow try_except mbind mret M_bind M_ret bind ret on_driver click
       sleep].
  destruct (w_driver w) as [d|] eqn:Hd; [|apply extends_with_refl].
  destruct (tag_name d el) as [e|tag] eqn:Htag; [apply extends_with_refl|].
  case_bool_decide as Hlink; [apply extends_with_refl|].
  cbn [w_driver]. rewrite Hd.
  destruct (execute_click d el) as [[e|[]] d'].
  - exists [EvClick d el]. split; [done|].
    constructor; [|constructor]. exists tag. done.
  - exists [EvClick d el; EvSleep 100]. split.
    + cbn [snd w_trace]. by rewrite <- app_assoc.
    + constructor; [exists tag; done|]. by repeat constructor.
Qed.

Lemma click_elements_not_link elements :
  steps (extends_with not_link_click) (click_elements elements).
Proof.
  induction elements as [|el rest IH]; cbn [click_elements].
  - apply steps_ret, extends_with_refl.
  - apply steps_bind; [apply extends_with_trans | apply click_one_not_link |].
    intros _. exact IH.
Qed.

(** C8: the clicks [reveal_clicks] makes, for any list of phrases, and
    with them all the clicks of a request, are on elements whose tag
    name is not ["a"] in any case of letters; an element whose tag
    name is ["a"] is passed over and the loop goes on with the
    elements after it. *)
Theorem reveal_clicks_skip_links :
  (∀ keywords w,
      ∃ evs, w_trace (snd (reveal_clicks keywords w)) = w_trace w ++ evs
             ∧ Forall not_link_click evs)
  ∧ (∀ w,
      ∃ evs, w_trace (snd (scrape_current w)) = w_trace w ++ evs
             ∧ Forall not_link_click evs)
  ∧ ∀ w page el rest tag,
      w_driver w = Some page →
      tag_name page el = inr tag →
      PyStr.lower tag = "a" →
      click_elements (el :: rest) w = click_elements rest w.
Proof.
  split; [|split].
  - intros keywords.
    apply (steps_reveal_clicks (extends_with not_link_click)).
    + apply extends_with_refl.
    + apply extends_with_trans.
    + apply click_elements_not_link.
  - apply (steps_scrape_current (extends_with not_link_click)).
    + apply extends_with_refl.
    + apply extends_with_trans.
    + intros line. by apply extends_print.
    + intros ms. by apply extends_sleep.
    + intros prompt. by apply extends_generate.
    + intros record url. by apply extends_save.
    + apply click_elements_not_link.
  - intros w page el rest tag Hpage Htag Hlink. cbn [click_elements].
    cbv [swallow try_except mbind mret M_bind M_ret bind ret on_driver].
    rewrite Hpage, Htag, bool_decide_eq_true_2 by exact Hlink.
    reflexivity.
Qed.

End RevealFacts.

(** ** The request and the store *)

Section RequestFacts.
Context `{Capabilities}.

Lemma keeps_store_refl w : keeps_store w w.
Proof. by split. Qed.

Lemma keeps_store_trans w1 w2 w3 :
  keeps_store w1 w2 → keeps_store w2 w3 → keeps_store w1 w3.
Proof. intros [Hc1 Hi1] [Hc2 Hi2]. split; congruence. Qed.

Lemma keeps_print line : steps keeps_store (print line).
Proof. by intros w. Qed.

Lemma keeps_sleep ms : steps keeps_store (sleep ms).
Proof. by intros w. Qed.

Lemma keeps_generate prompt : steps keeps_store (model_generate_content prompt).
Proof. by intros w. Qed.

Lemma keeps_click_elements elements :
  steps keeps_store (click_elements elements).
Proof.
  induction elements as [|el rest IH]; cbn [click_elements].
  - apply steps_ret, keeps_store_refl.
  - apply steps_bind; [apply keeps_store_trans | | intros _; exact IH].
    intros w.
    cbv [swallow try_except mbind mret M_bind M_ret bind ret on_driver click
         sleep].
    destruct (w_driver w) as [d|] eqn:Hd; [|done].
    destruct (tag_name d el) as [e|tag]; [done|].
    case_bool_decide; [done|]. cbn [w_driver]. rewrite Hd.
    by destruct (execute_click d el) as [[e|[]] d'].
Qed.

Lemma keeps_reveal_clicks keywords : steps keeps_store (reveal_clicks keywords).
Proof.
  apply steps_reveal_clicks.
  - apply keeps_store_refl.
  - apply keeps_store_trans.
  - apply keeps_click_elements.
Qed.

Lemma keeps_safe_generate_content prompt :
  steps keeps_store (safe_generate_content prompt).
Proof.
  apply steps_attempt_loop.
  - apply keeps_store_refl.
  - apply keeps_store_trans.
  - apply keeps_print.
  - apply keeps_sleep.
  - apply keeps_generate.
Qed.

(** The world a step leaves, from the equation of its run. *)
Lemma steps_run {A} R (m : M A) w r w' : steps R m → m w = (r, w') → R w w'.
Proof. intros Hm Hrun. specialize (Hm w). by rewrite Hrun in Hm. Qed.

Lemma bind_inr_inv {A B} (m : M A) (k : A → M B) w b w' :
  (m ≫= k) w = (inr b, w') →
  ∃ a w1, m w = (inr a, w1) ∧ k a w1 = (inr b, w').
Proof.
  unfold mbind, M_bind, bind. destruct (m w) as [[e|a] w1]; [done|].
  intros Hk. by exists a, w1.
Qed.

(** A request that succeeds answers with status ["success"] and leaves
    the store that [save_to_csv] makes of the one it found. *)
Lemma scrape_current_success w body w' :
  scrape_current w = (inr body, w') →
  ∃ now url,
    status body = "success"
    ∧ w_csv w' = saved_store (data body) now url (w_csv w) (w_io w)
    ∧ w_io w' = w_io w.
Proof.
  unfold scrape_current. destruct (w_driver w); [|done].
  unfold try_except at 1.
  match goal with |- context [let (_, _) := ?m w in _] =>
    destruct (m w) as [[e|b] w1] eqn:Hbody end.
  { destruct (is_Exception e); [|done].
    cbv [mbind M_bind bind print emit raise]. done. }
  intros [= -> ->].
  apply bind_inr_inv in Hbody as ([] & w2 & H1 & Hbody).
  apply (steps_run _ _ _ _ _ (keeps_print _)) in H1.
  apply bind_inr_inv in Hbody as ([] & w3 & H2 & Hbody).
  apply (steps_run _ _ _ _ _ (keeps_reveal_clicks _)) in H2.
  apply bind_inr_inv in Hbody as ([] & w4 & H3 & Hbody).
  apply (steps_run _ _ _ _ _ (keeps_sleep _)) in H3.
  apply bind_inr_inv in Hbody as (url & w5 & H4 & Hbody).
  apply (steps_run _ _ _ _ _ (steps_on_driver _ keeps_store_refl _)) in H4.
  apply bind_inr_inv in Hbody as (raw_html & w6 & H5 & Hbody).
  apply (steps_run _ _ _ _ _ (steps_on_driver _ keeps_store_refl _)) in H5.
  apply bind_inr_inv in Hbody as ([] & w7 & H6 & Hbody).
  apply (steps_run _ _ _ _ _ (keeps_print _)) in H6.
  apply bind_inr_inv in Hbody as (response & w8 & H7 & Hbody).
  apply (steps_run _ _ _ _ _ (keeps_safe_generate_content _)) in H7.
  apply bind_inr_inv in Hbody as (parsed & w9 & H8 & Hbody).
  apply (steps_run _ _ _ _ _ (steps_lift _ keeps_store_refl _)) in H8.
  apply bind_inr_inv in Hbody as ([] & w10 & H9 & Hbody).
  injection Hbody as <- <-.
  destruct (save_to_csv_run parsed url w9) as (evs & Hrun & _).
  rewrite Hrun in H9. injection H9 as <-.
  assert (keeps_store w w9) as [Hcsv Hio]
    by eauto 10 using keeps_store_trans.
  exists (strftime (w_clock w9)), url. cbn [status data w_csv w_io].
  by rewrite Hcsv, Hio.
Qed.

(** A computation that leaves the store as it was whenever it raises. *)
Lemma bind_raises_keeping {A B} (m : M A) (k : A → M B) w e w' :
  steps keeps_store m →
  (∀ a w1, k a w1 = (inl e, w') → keeps_store w1 w') →
  (m ≫= k) w = (inl e, w') → keeps_store w w'.
Proof.
  intros Hm Hk. unfold mbind, M_bind, bind. specialize (Hm w).
  destruct (m w) as [[e1|a] w1]; cbn [snd] in Hm.
  - by intros [= -> ->].
  - intros Hrun. eapply keeps_store_trans; [exact Hm | by eapply Hk].
Qed.

(** C5 (as the code tests it): with no browser handle at all, that is
    with [driver_keeper] being [None], the request fails at once with
    status 400 and the world, the store with it, is left as it was; and
    every request that fails, for whatever reason, a handle that no
    longer answers included, leaves the store as it was. *)
Theorem scrape_current_no_browser (w : World) :
  (w_driver w = None →
   scrape_current w = (inl (Exn (HTTPException 400) "Browser not open."), w))
  ∧ ∀ e w', scrape_current w = (inl e, w') →
            w_csv w' = w_csv w ∧ w_io w' = w_io w.
Proof.
  split.
  { intros Hnone. unfold scrape_current. rewrite Hnone. reflexivity. }
  intros e w'. unfold scrape_current.
  destruct (w_driver w); [|by intros [= _ <-]].
  unfold try_except at 1.
  match goal with |- context [let (_, _) := ?m w in _] =>
    destruct (m w) as [[e0|b] w1] eqn:Hbody end; [|done].
  intros Hhandler. apply (keeps_store_trans _ w1).
  - revert Hbody.
    apply bind_raises_keeping; [apply keeps_print|]. intros _ w2.
    apply bind_raises_keeping; [apply keeps_reveal_clicks|]. intros _ w3.
    apply bind_raises_keeping; [apply keeps_sleep|]. intros _ w4.
    apply bind_raises_keeping;
      [apply steps_on_driver, keeps_store_refl|]. intros url w5.
    apply bind_raises_keeping;
      [apply steps_on_driver, keeps_store_refl|]. intros raw_html w6.
    apply bind_raises_keeping; [apply keeps_print|]. intros _ w7.
    apply bind_raises_keeping; [apply keeps_safe_generate_content|].
    intros response w8.
    apply bind_raises_keeping; [apply steps_lift, keeps_store_refl|].
    intros parsed w9. unfold mbind, M_bind, bind.
    by destruct (save_to_csv_run parsed url w9) as (evs & -> & _).
  - destruct (is_Exception e0).
    + apply (steps_run keeps_store _ _ _ _
               (steps_bind _ keeps_store_trans _ _ (keeps_print _)
                  (fun _ => steps_bind _ keeps_store_trans _ _ (keeps_print _)
                              (fun _ => steps_raise _ keeps_store_refl _)))
               Hhandler).
    + by injection Hhandler as _ <-.
Qed.

End RequestFacts.

(** ** The request does not read the store *)

Section Agreement.
Context `{Capabilities}.

















Lemma saved_store_fault record now url csv io :
  io ≠ Writable → saved_store record now url csv io = csv.
Proof. intros Hio. by destruct record, csv, io. Qed.

Lemma saved_store_not_dict record now url csv io :
  (∀ members, record ≠ JObj members) →
  saved_store record now url csv io = init_store csv io.
Proof.
  intros Hrec. destruct record; try reflexivity. by destruct (Hrec members).
Qed.

(** C10: [save_to_csv] returns normally for every parsed value, map or
    not, and under every fault of the store; and a request that answers
    with success for a value that is not a map, or while the store
    cannot be written, has appended no row: the store is what
    [init_csv] alone makes of it. *)
Theorem save_to_csv_total :
  (∀ record url w, fst (save_to_csv record url w) = inr tt)
  ∧ ∀ w body w',
      scrape_current w = (inr body, w') →
      (∀ members, data body ≠ JObj members) ∨ w_io w ≠ Writable →
      status body = "success"
      ∧ w_csv w' = init_store (w_csv w) (w_io w).
Proof.
  split.
  - intros record url w.
    by destruct (save_to_csv_run record url w) as (evs & -> & _).
  - intros w body w' Hrun Hcase.
    apply scrape_current_success in Hrun as (now & url & Hstatus & Hcsv & _).
    split; [exact Hstatus|]. rewrite Hcsv.
    destruct Hcase as [Hrec|Hio].
    + by apply saved_store_not_dict.
    + rewrite saved_store_fault by exact Hio.
      by destruct (w_csv w), (w_io w).
Qed.

End Agreement.

(** * Further properties *)

(** ** The record store *)

Lemma steps_weaken `{Capabilities} {A} (R1 R2 : World → World → Prop)
    (m : M A) :
  (∀ w w', R1 w w' → R2 w w') → steps R1 m → steps R2 m.
Proof. intros Himp Hm w. apply Himp, Hm. Qed.

Section StoreMore.
Context `{Capabilities}.


(** X3: only the 20 keys of [FIELD_KEYS] count: two maps that agree on
    them leave the same store, whatever else they hold. *)
Theorem save_to_csv_reads_field_keys (members1 members2 : gmap string json)
    (url : string) (w : World) :
  (∀ key, key ∈ FIELD_KEYS → members1 !! key = members2 !! key) →
  w_csv (snd (save_to_csv (JObj members1) url w))
  = w_csv (snd (save_to_csv (JObj members2) url w)).
Proof.
  intros Hagree.
  destruct (save_to_csv_run (JObj members1) url w) as (evs1 & -> & _).
  destruct (save_to_csv_run (JObj members2) url w) as (evs2 & -> & _).
  cbn [snd w_csv]. unfold saved_store, record_row.
  destruct (w_io w); try reflexivity.
  do 5 f_equal. apply list_fmap_ext. intros i key Hkey.
  rewrite Hagree; [done|]. by eapply list_elem_of_lookup_2.
Qed.


(** X6: [init_csv] raises only when the file is absent and opening it
    raises an [OSError] other than [PermissionError], and then raises
    that error; a locked file makes it print its warning and return
    normally, with the file still absent. *)
Theorem init_csv_raises (w : World) :
  (∀ e, fst (init_csv w) = inl e
        ↔ w_csv w = None
          ∧ ∃ reason, w_io w = Unwritable reason ∧ e = Exn OSError reason)
  ∧ (w_csv w = None → w_io w = Locked →
     init_csv w
     = (inr tt,
        add_trace [ EvPrint LogCreatingCsv; EvPrint LogBanner;
                    EvPrint LogCannotCreate; EvPrint LogBanner ] w)).
Proof.
  rewrite init_csv_run. split.
  - intros e. destruct (w_csv w) as [rows|], (w_io w) as [| |reason];
      cbn [fst]; split;
      try (intros Heq; discriminate Heq);
      try (intros [Hcsv (reason' & Hio & _)]; discriminate).
    + intros [= <-]. eauto.
    + intros [_ (reason' & Hio & ->)]. by injection Hio as ->.
  - by intros -> ->.
Qed.

End StoreMore.

(** ** The HTML compressor *)

Lemma decompose_in_ext names1 names2 n :
  (∀ name, name ∈ names1 ↔ name ∈ names2) →
  decompose_in names1 n = decompose_in names2 n.
Proof.
  intros Hsame. induction n as [s|s|name contents IH] using node_nested_ind;
    try reflexivity.
  cbn [decompose_in]. rewrite (bool_decide_ext _ _ (Hsame name)).
  case_bool_decide; [reflexivity|]. do 2 f_equal.
  by apply flat_map_ext_Forall.
Qed.

Lemma decompose_in_app names1 names2 n :
  flat_map (decompose_in names2) (decompose_in names1 n)
  = decompose_in (names1 ++ names2) n.
Proof.
  induction n as [s|s|name contents IH] using node_nested_ind;
    try reflexivity.
  cbn [decompose_in].
  assert (bool_decide (name ∈ names1 ++ names2)
          = bool_decide (name ∈ names1) || bool_decide (name ∈ names2)) as ->.
  { rewrite <- bool_decide_or. apply bool_decide_ext, elem_of_app. }
  destruct (bool_decide (name ∈ names1)); [reflexivity|].
  cbn [flat_map decompose_in orb]. rewrite app_nil_r.
  destruct (bool_decide (name ∈ names2)); [reflexivity|].
  do 2 f_equal. rewrite flat_map_flat_map. by apply flat_map_ext_Forall.
Qed.

Lemma decompose_all_ext names1 names2 soup :
  (∀ name, name ∈ names1 ↔ name ∈ names2) →
  decompose_all names1 soup = decompose_all names2 soup.
Proof.
  intros Hsame. unfold decompose_all. apply flat_map_ext_Forall, Forall_forall.
  intros n _. by apply decompose_in_ext.
Qed.

Lemma decompose_all_app names1 names2 soup :
  decompose_all names2 (decompose_all names1 soup)
  = decompose_all (names1 ++ names2) soup.
Proof.
  unfold decompose_all. rewrite flat_map_flat_map.
  apply flat_map_ext_Forall, Forall_forall. intros n _. apply decompose_in_app.
Qed.

(** X7: the removal passes compose: one pass after another is one pass
    over both lists of names, the order of two passes does not matter,
    and a pass repeated changes nothing more.  So [clean_html] removes
    the 18 tag names of its two lists as one pass over all of them
    would. *)
Theorem decompose_all_passes (names1 names2 : list string) (soup : list node) :
  decompose_all names2 (decompose_all names1 soup)
    = decompose_all (names1 ++ names2) soup
  ∧ decompose_all names2 (decompose_all names1 soup)
    = decompose_all names1 (decompose_all names2 soup)
  ∧ decompose_all names1 (decompose_all names1 soup)
    = decompose_all names1 soup.
Proof.
  split; [apply decompose_all_app|]. split.
  - rewrite !decompose_all_app. apply decompose_all_ext.
    intros name. rewrite !elem_of_app. tauto.
  - rewrite decompose_all_app. apply decompose_all_ext.
    intros name. rewrite elem_of_app. tauto.
Qed.

Lemma tag_names_decompose_in names n :
  Forall (fun name => (name ∉ names) ∧ (name ∈ tag_names n))
         (flat_map tag_names (decompose_in names n)).
Proof.
  induction n as [s|s|name contents IH] using node_nested_ind;
    try by constructor.
  cbn [decompose_in]. case_bool_decide as Hname; [by constructor|].
  cbn [flat_map tag_names]. rewrite app_nil_r. constructor.
  - split; [exact Hname | by left].
  - rewrite flat_map_flat_map. apply Forall_forall. intros tag Htag.
    apply list_elem_of_In, in_flat_map in Htag as (child & Hchild & Htag).
    rewrite Forall_forall in IH.
    specialize (IH child (proj2 (list_elem_of_In _ _) Hchild)).
    rewrite Forall_forall in IH.
    destruct (IH tag (proj2 (list_elem_of_In _ _) Htag)) as [Hout Hin].
    split; [exact Hout|]. right.
    apply list_elem_of_In, in_flat_map. exists child.
    split; [exact Hchild | by apply list_elem_of_In].
Qed.

(** X8: after a removal pass no tag of the tree, at any depth, has one
    of the removed names, and every tag that is left was in the tree
    before. *)
Theorem decompose_all_removes (names : list string) (soup : list node) :
  Forall (fun name => (name ∉ names) ∧ (name ∈ flat_map tag_names soup))
         (flat_map tag_names (decompose_all names soup)).
Proof.
  unfold decompose_all. rewrite flat_map_flat_map.
  apply Forall_forall. intros tag Htag.
  apply list_elem_of_In, in_flat_map in Htag as (n & Hn & Htag).
  pose proof (tag_names_decompose_in names n) as Hall.
  rewrite Forall_forall in Hall.
  destruct (Hall tag (proj2 (list_elem_of_In _ _) Htag)) as [Hout Hin].
  split; [exact Hout|].
  apply list_elem_of_In, in_flat_map. exists n.
  split; [exact Hn | by apply list_elem_of_In].
Qed.

Lemma lstrip_first s : not_space_at (first_char (PyStr.lstrip s)).
Proof.
  induction s as [|c rest IH]; cbn; [done|].
  destruct (PyStr.isspace c) eqn:Hc; [exact IH | exact Hc].
Qed.

Lemma rstrip_first t :
  PyStr.rstrip t = EmptyString ∨ first_char (PyStr.rstrip t) = first_char t.
Proof.
  destruct t as [|c rest]; [by left|]. cbn.
  destruct (PyStr.rstrip rest); [|by right].
  destruct (PyStr.isspace c); [by left | by right].
Qed.

Lemma rstrip_last t : not_space_at (last_char (PyStr.rstrip t)).
Proof.
  induction t as [|c rest IH]; cbn; [done|].
  destruct (PyStr.rstrip rest) as [|k kept] eqn:Hkept.
  - destruct (PyStr.isspace c) eqn:Hc; [done | exact Hc].
  - exact IH.
Qed.

Lemma strip_ends s :
  not_space_at (first_char (PyStr.strip s))
  ∧ not_space_at (last_char (PyStr.strip s)).
Proof.
  unfold PyStr.strip. split; [|apply rstrip_last].
  destruct (rstrip_first (PyStr.lstrip s)) as [-> | ->]; [done|].
  apply lstrip_first.
Qed.

Lemma first_char_app a b :
  a ≠ EmptyString → first_char (a +:+ b) = first_char a.
Proof. by destruct a. Qed.

Lemma last_char_app a b :
  b ≠ EmptyString → last_char (a +:+ b) = last_char b.
Proof.
  intros Hb. induction a as [|c a IH]; [done|].
  change (String c a +:+ b) with (String c (a +:+ b)). cbn [last_char].
  rewrite IH. destruct (a +:+ b) eqn:Hab; [|done].
  destruct a; [by destruct b | done].
Qed.

Lemma app_nonempty_r a b : b ≠ EmptyString → a +:+ b ≠ EmptyString.
Proof. intros Hb. destruct a; [exact Hb | done]. Qed.

Lemma join_ends sep (parts : list string) :
  Forall (fun p => p ≠ EmptyString
                   ∧ not_space_at (first_char p)
                   ∧ not_space_at (last_char p)) parts →
  not_space_at (first_char (PyStr.join sep parts))
  ∧ not_space_at (last_char (PyStr.join sep parts))
  ∧ (parts ≠ [] → PyStr.join sep parts ≠ EmptyString).
Proof.
  induction 1 as [|p rest (Hp & Hfirst & Hlast) Hrest (IHfirst & IHlast & IHne)];
    [done|].
  destruct rest as [|q rest]; [done|].
  change (PyStr.join sep (p :: q :: rest))
    with (p +:+ sep +:+ PyStr.join sep (q :: rest)).
  assert (sep +:+ PyStr.join sep (q :: rest) ≠ EmptyString) as Htail
    by (apply app_nonempty_r, IHne; done).
  split; [by rewrite first_char_app|]. split.
  - rewrite last_char_app by exact Htail.
    rewrite last_char_app by (by apply IHne). exact IHlast.
  - intros _. by apply app_nonempty_r.
Qed.

Lemma slice_to_first n s :
  PyStr.slice_to n s = EmptyString
  ∨ first_char (PyStr.slice_to n s) = first_char s.
Proof. destruct n, s; cbn; auto. Qed.

Lemma slice_to_all n s :
  (String.length s ≤ n)%nat → PyStr.slice_to n s = s.
Proof.
  revert n. induction s as [|c s IH]; intros [|n] Hlen; cbn in *;
    try reflexivity; try lia.
  f_equal. apply IH. lia.
Qed.

Section CompressorMore.
Context `{Capabilities}.

(** X9: the output of [clean_html] never starts with white space; and
    when the collapsed text fits in 25,000 characters, so that nothing
    is cut off, it does not end with white space either. *)
Theorem clean_html_trimmed (raw_html : option string) :
  not_space_at (first_char (clean_html raw_html))
  ∧ ∀ c rest,
      raw_html = Some (String c rest) →
      (String.length
         (get_text " "
            (decompose_all BLOAT_TAGS
               (decompose_all JUNK_TAGS (parse_html (String c rest)))))
       ≤ 25000)%nat →
      not_space_at (last_char (clean_html raw_html)).
Proof.
  assert (∀ soup,
            not_space_at (first_char (get_text " " soup))
            ∧ not_space_at (last_char (get_text " " soup))) as Htext.
  { intros soup. unfold get_text.
    destruct (join_ends " "
                (List.filter PyStr.nonempty
                   (PyStr.strip <$> flat_map all_strings soup)))
      as (Hfirst & Hlast & _); [|by split].
    apply Forall_forall. intros p Hp.
    apply list_elem_of_In, List.filter_In in Hp as [Hp Hne].
    apply list_elem_of_In, list_elem_of_fmap in Hp as (s & -> & _).
    split; [by destruct (PyStr.strip s) | apply strip_ends]. }
  split.
  - destruct raw_html as [[|c rest]|]; [exact I | | exact I].
    unfold clean_html.
    match goal with |- context [PyStr.slice_to ?n ?t] =>
      destruct (slice_to_first n t) as [-> | ->] end; [done | apply Htext].
  - intros c rest -> Hfits. unfold clean_html.
    rewrite slice_to_all by exact Hfits. apply Htext.
Qed.

End CompressorMore.

(** ** The model invoker *)

Lemma prefix_lower needle hay :
  String.prefix needle hay = true →
  String.prefix (PyStr.lower needle) (PyStr.lower hay) = true.
Proof.
  revert hay. induction needle as [|a needle IH]; intros [|b hay]; cbn;
    try done.
  destruct (ascii_dec a b) as [->|]; [|done]. intros Hrest.
  destruct (ascii_dec (PyStr.lower_char b) (PyStr.lower_char b)); [|done].
  by apply IH.
Qed.

Lemma contains_lower needle hay :
  PyStr.contains needle hay = true →
  PyStr.contains (PyStr.lower needle) (PyStr.lower hay) = true.
Proof.
  induction hay as [|b hay IH]; cbn [PyStr.contains PyStr.lower].
  - rewrite !orb_false_r. apply (prefix_lower needle EmptyString).
  - intros [Hhere|Hlater]%orb_true_iff; apply orb_true_iff.
    + left. by apply (prefix_lower needle (String b hay)).
    + right. by apply IH.
Qed.

Section InvokerMore.
Context `{Capabilities}.

(** X10: when the first invocation fails with a quota error and the
    second answers, [safe_generate_content] returns that answer after
    one wait of 5 seconds and exactly two invocations. *)
Theorem safe_generate_content_recovers prompt w e response :
  generate_content (w_calls w) prompt = inl e →
  is_Exception e = true →
  is_quota_error e = true →
  generate_content (S (w_calls w)) prompt = inr response →
  safe_generate_content prompt w
  = (inr response,
     mkWorld ((fun d => elapse d 5000) <$> w_driver w) (w_csv w) (w_io w)
             (w_clock w + 5000) (S (S (w_calls w)))
             (w_trace w
                ++ [ EvGenerate prompt;
                     EvPrint (LogTokenLimit 5); EvSleep 5000;
                     EvGenerate prompt ])).
Proof.
  intros Hgen0 Hexc Hquota Hgen1. unfold safe_generate_content.
  cbn [length seq].
  rewrite (attempt_loop_quota _ _ _ _ _ e 5) by done.
  rewrite (attempt_loop_success _ _ _ _ _ response) by done.
  unfold waited, invoked. cbn [w_driver w_csv w_io w_clock w_calls w_trace].
  by rewrite <- !app_assoc.
Qed.

(** X11: whatever the model does, [safe_generate_content] invokes it
    once or twice, waits 0, 5 or 35 seconds in all, and leaves the store
    alone.  What it returns is the answer of one of these invocations,
    and what it raises is the error of one of them or its own error for
    an exhausted quota. *)
Theorem safe_generate_content_bounds prompt w :
  let r := fst (safe_generate_content prompt w) in
  let w' := snd (safe_generate_content prompt w) in
  (w_calls w' = S (w_calls w) ∧ w_clock w' = w_clock w
   ∨ w_calls w' = S (S (w_calls w))
     ∧ (w_clock w' = w_clock w + 5000 ∨ w_clock w' = w_clock w + 35000))
  ∧ w_csv w' = w_csv w ∧ w_io w' = w_io w
  ∧ (∀ response,
       r = inr response →
       generate_content (w_calls w) prompt = inr response
       ∨ generate_content (S (w_calls w)) prompt = inr response)
  ∧ (∀ e,
       r = inl e →
       generate_content (w_calls w) prompt = inl e
       ∨ generate_content (S (w_calls w)) prompt = inl e
       ∨ e = Exn PlainException
               "Failed to get response from Gemini (Quota Exceeded).").
Proof.
  cbv zeta. unfold safe_generate_content. cbn [length seq].
  destruct (generate_content (w_calls w) prompt) as [e0|r0] eqn:Hgen0.
  2: { rewrite (attempt_loop_success _ _ _ _ _ r0) by done. cbn.
       repeat split; auto; intros ? [= <-]; auto. }
  destruct (is_Exception e0 && is_quota_error e0) eqn:Hretry.
  2: { assert (attempt_loop [5; 30] [0%nat; 1%nat] prompt w
               = (inl e0, invoked prompt w)) as ->.
       { cbn [attempt_loop]. unfold try_except, model_generate_content.
         rewrite Hgen0.
         destruct (is_Exception e0), (is_quota_error e0); done. }
       cbn. repeat split; auto; intros ? [= <-]; auto. }
  apply andb_true_iff in Hretry as [Hexc0 Hquota0].
  rewrite (attempt_loop_quota _ _ _ _ _ e0 5) by done.
  destruct (generate_content (S (w_calls w)) prompt) as [e1|r1] eqn:Hgen1.
  2: { rewrite (attempt_loop_success _ _ _ _ _ r1) by done. cbn.
       repeat split; auto; intros ? [= <-]; auto. }
  destruct (is_Exception e1 && is_quota_error e1) eqn:Hretry1.
  2: { assert (attempt_loop [5; 30] [1%nat] prompt
                 (waited 5 (invoked prompt w))
               = (inl e1, invoked prompt (waited 5 (invoked prompt w)))) as ->.
       { cbn [attempt_loop]. unfold try_except, model_generate_content.
         cbn [waited invoked w_calls]. rewrite Hgen1.
         destruct (is_Exception e1), (is_quota_error e1); done. }
       cbn. repeat split; auto; intros ? [= <-]; auto. }
  apply andb_true_iff in Hretry1 as [Hexc1 Hquota1].
  rewrite (attempt_loop_quota _ _ _ _ _ e1 30) by done.
  cbn. repeat split; auto; try (intros ? [= <-]; auto).
  right. split; [done|]. right. lia.
Qed.

(** X12: the test for a quota error does not look at the case of the
    letters: an error whose text holds ["quota"] in any mix of upper and
    lower case is taken for a quota error, and so is one whose text
    holds ["429"]. *)
Theorem is_quota_error_any_case (e : exn) (needle : string) :
  PyStr.lower needle = "quota" ∨ needle = "429" →
  PyStr.contains needle (str_exn e) = true →
  is_quota_error e = true.
Proof.
  intros [Hlower | ->] Hin; unfold is_quota_error; apply orb_true_iff.
  - right. rewrite <- Hlower. by apply contains_lower.
  - by left.
Qed.

End InvokerMore.

(** ** The request *)

Lemma prefix_app needle a b :
  String.prefix needle a = true → String.prefix needle (a +:+ b) = true.
Proof.
  revert a. induction needle as [|c needle IH]; intros a.
  - intros _. by destruct (a +:+ b).
  - destruct a as [|d a]; [done|].
    change (String d a +:+ b) with (String d (a +:+ b)). cbn.
    destruct (ascii_dec c d); [apply IH | done].
Qed.

Lemma contains_app_l needle a b :
  PyStr.contains needle a = true → PyStr.contains needle (a +:+ b) = true.
Proof.
  induction a as [|d a IH].
  - cbn [PyStr.contains]. rewrite orb_false_r. intros Hpre.
    destruct needle; [by destruct b | done].
  - change (String d a +:+ b) with (String d (a +:+ b)).
    cbn [PyStr.contains]. intros [Hhere|Hlater]%orb_true_iff;
      apply orb_true_iff.
    + left. by apply (prefix_app needle (String d a)).
    + right. by apply IH.
Qed.

Lemma contains_app_r needle a b :
  PyStr.contains needle b = true → PyStr.contains needle (a +:+ b) = true.
Proof.
  intros Hb. induction a as [|d a IH]; [exact Hb|].
  change (String d a +:+ b) with (String d (a +:+ b)).
  cbn [PyStr.contains]. rewrite IH. apply orb_true_r.
Qed.

Lemma prefix_refl_app a b : String.prefix a (a +:+ b) = true.
Proof.
  induction a as [|c a IH]; [by destruct b|].
  change (String c a +:+ b) with (String c (a +:+ b)). cbn.
  destruct (ascii_dec c c); [exact IH | done].
Qed.

Lemma contains_prefix needle hay :
  String.prefix needle hay = true → PyStr.contains needle hay = true.
Proof.
  intros Hpre. destruct hay; cbn [PyStr.contains]; by rewrite Hpre.
Qed.

Lemma length_app_string a b :
  String.length (a +:+ b) = (String.length a + String.length b)%nat.
Proof.
  induction a as [|c a IH]; [done|].
  change (String c a +:+ b) with (String c (a +:+ b)). cbn. by rewrite IH.
Qed.

Lemma build_prompt_length cleaned_text :
  String.length (build_prompt cleaned_text)
  = (465 + String.length cleaned_text)%nat.
Proof. unfold build_prompt. rewrite !length_app_string. cbn. lia. Qed.

(** X13: the prompt names every key that [save_to_csv] reads, holds the
    cleaned text, and is 465 characters longer than that text. *)
Theorem build_prompt_names_field_keys (cleaned_text : string) :
  Forall (fun key => PyStr.contains key (build_prompt cleaned_text) = true)
         FIELD_KEYS
  ∧ PyStr.contains cleaned_text (build_prompt cleaned_text) = true
  ∧ String.length (build_prompt cleaned_text)
    = (465 + String.length cleaned_text)%nat.
Proof.
  split; [|split].
  - unfold FIELD_KEYS, build_prompt.
    repeat (apply List.Forall_cons;
            [ repeat first [ apply contains_app_l; vm_compute; reflexivity
                           | apply contains_app_r ] |]).
    apply List.Forall_nil.
  - unfold build_prompt.
    repeat lazymatch goal with
           | |- PyStr.contains _ (cleaned_text +:+ _) = true => fail
           | _ => apply contains_app_r
           end.
    apply contains_prefix, prefix_refl_app.
  - apply build_prompt_length.
Qed.

Section RequestMore.
Context `{Capabilities}.

Lemma swallow_returns body w : fst (swallow body w) = inr tt.
Proof.
  unfold swallow, try_except. by destruct (body w) as [[e|[]] w'].
Qed.

Lemma bind_returns {A B} (m : M A) (k : A → M B) w a w1 :
  m w = (inr a, w1) → (m ≫= k) w = k a w1.
Proof. intros Hm. unfold mbind, M_bind, bind. by rewrite Hm. Qed.

Lemma bind_raises {A B} (m : M A) (k : A → M B) w e w1 :
  m w = (inl e, w1) → (m ≫= k) w = (inl e, w1).
Proof. intros Hm. unfold mbind, M_bind, bind. by rewrite Hm. Qed.

Lemma click_elements_returns elements w :
  fst (click_elements elements w) = inr tt.
Proof.
  revert w. induction elements as [|el rest IH]; intros w; [done|].
  cbn [click_elements].
  match goal with |- context [swallow ?body] =>
    pose proof (swallow_returns body w) as Hone;
    destruct (swallow body w) as [r w1] eqn:Hrun end.
  cbn [fst] in Hone. subst r.
  rewrite (bind_returns _ _ _ _ _ Hrun). apply IH.
Qed.

Lemma reveal_clicks_returns keywords w :
  fst (reveal_clicks keywords w) = inr tt.
Proof.
  revert w. induction keywords as [|key rest IH]; intros w; [done|].
  cbn [reveal_clicks].
  match goal with |- context [swallow ?body] =>
    pose proof (swallow_returns body w) as Hone;
    destruct (swallow body w) as [r w1] eqn:Hrun end.
  cbn [fst] in Hone. subst r.
  rewrite (bind_returns _ _ _ _ _ Hrun). apply IH.
Qed.

Lemma browser_kept_refl w : browser_kept w w.
Proof. by split. Qed.

Lemma browser_kept_trans w1 w2 w3 :
  browser_kept w1 w2 → browser_kept w2 w3 → browser_kept w1 w3.
Proof. intros [Hc1 Hd1] [Hc2 Hd2]. split; [congruence | auto]. Qed.

(** The events of the loop over the elements: clicks and waits. *)
Lemma click_elements_events (P : event → Prop) elements :
  (∀ page el, P (EvClick page el)) →
  P (EvSleep 100) →
  steps (fun w w' => extends_with P w w' ∧ browser_kept w w')
        (click_elements elements).
Proof.
  intros Hclick Hsleep.
  assert (∀ w, extends_with P w w ∧ browser_kept w w) as Hrefl
    by (split; [apply extends_with_refl | apply browser_kept_refl]).
  induction elements as [|el rest IH]; cbn [click_elements].
  - by apply steps_ret.
  - apply steps_bind; [| | intros _; exact IH].
    { intros w1 w2 w3 [He1 Hb1] [He2 Hb2].
      split; [by eapply extends_with_trans | by eapply browser_kept_trans]. }
    intros w.
    cbv [swallow try_except mbind mret M_bind M_ret bind ret on_driver click
         sleep].
    destruct (w_driver w) as [d|] eqn:Hd; [|apply Hrefl].
    destruct (tag_name d el) as [e|tag]; [apply Hrefl|].
    case_bool_decide; [apply Hrefl|]. cbn [w_driver]. rewrite Hd.
    destruct (execute_click d el) as [[e|[]] d']; cbn [snd].
    + split; [|by split; [|rewrite Hd]].
      exists [EvClick d el]. split; [done | by constructor].
    + split; [|by split; [|rewrite Hd]].
      exists [EvClick d el; EvSleep 100]. split.
      * cbn [w_trace]. by rewrite <- app_assoc.
      * by repeat constructor.
Qed.

(** X14: the reveal clicks are best effort and nothing more: for every
    behaviour of the browser [reveal_clicks] returns normally, and so
    does the loop over the elements; neither invokes the model, touches
    the store or loses the browser handle, and the only events are
    clicks and the waits after them. *)
Theorem reveal_clicks_best_effort (keywords : list string) (w : World) :
  let w' := snd (reveal_clicks keywords w) in
  fst (reveal_clicks keywords w) = inr tt
  ∧ (∀ elements, fst (click_elements elements w) = inr tt)
  ∧ w_calls w' = w_calls w
  ∧ w_csv w' = w_csv w ∧ w_io w' = w_io w
  ∧ (is_Some (w_driver w) → is_Some (w_driver w'))
  ∧ ∃ evs, w_trace w' = w_trace w ++ evs
           ∧ Forall (fun ev => match ev with
                               | EvClick _ _ | EvSleep 100 => True
                               | _ => False
                               end) evs.
Proof.
  cbv zeta.
  split; [apply reveal_clicks_returns|].
  split; [intros elements; apply click_elements_returns|].
  pose proof (keeps_reveal_clicks keywords w) as [Hcsv Hio].
  set (P := fun ev : event => match ev with
                              | EvClick _ _ | EvSleep 100 => True
                              | _ => False
                              end).
  assert (steps (fun w w' => extends_with P w w' ∧ browser_kept w w')
                (reveal_clicks keywords)) as Hsteps.
  { apply steps_reveal_clicks.
    - split; [apply extends_with_refl | apply browser_kept_refl].
    - intros w1 w2 w3 [He1 Hb1] [He2 Hb2].
      split; [by eapply extends_with_trans | by eapply browser_kept_trans].
    - intros elements. by apply click_elements_events. }
  destruct (Hsteps w) as [Hext [Hcalls Hdriver]].
  repeat split; auto.
Qed.

End RequestMore.

Section RequestRuns.
Context `{Capabilities}.

Lemma on_driver_run {A} (f : Driver → result A) w d r :
  w_driver w = Some d → f d = r → on_driver f w = (r, w).
Proof. intros Hd <-. unfold on_driver. by rewrite Hd. Qed.

Lemma request_handler_run e w :
  is_Exception e = true →
  request_handler e w
  = (inl (Exn (HTTPException 500) (str_exn e)),
     add_trace [EvPrint (LogError e); EvPrint LogTraceback] w).
Proof.
  intros Hexc. unfold request_handler. rewrite Hexc.
  cbv [mbind M_bind bind print emit raise add_trace].
  cbn [w_driver w_csv w_io w_clock w_calls w_trace].
  by rewrite <- app_assoc.
Qed.

(** The world in which the page is read. *)
Lemma after_reveal_facts w :
  (print LogScrapeStarted;;
   reveal_clicks ["Show Number"; "View"; "Call"; "Contact"; "WhatsApp"];;
   sleep 1000) w = (inr tt, after_reveal w)
  ∧ w_calls (after_reveal w) = w_calls w
  ∧ w_csv (after_reveal w) = w_csv w
  ∧ w_io (after_reveal w) = w_io w
  ∧ (is_Some (w_driver w) → is_Some (w_driver (after_reveal w))).
Proof.
  unfold after_reveal.
  set (keywords := ["Show Number"; "View"; "Call"; "Contact"; "WhatsApp"]).
  set (w1 := snd (print LogScrapeStarted w)).
  assert (print LogScrapeStarted w = (inr tt, w1)) as Hprint by done.
  rewrite (bind_returns _ _ _ _ _ Hprint).
  pose proof (reveal_clicks_returns keywords w1) as Hret.
  pose proof (keeps_reveal_clicks keywords w1) as [Hcsv Hio].
  assert (steps browser_kept (reveal_clicks keywords)) as Hkept.
  { apply (steps_weaken
             (fun w w' => extends_with (fun _ => True) w w' ∧ browser_kept w w')).
    - by intros w0 w0' [_ Hb].
    - apply steps_reveal_clicks.
      + split; [apply extends_with_refl | apply browser_kept_refl].
      + intros wa wb wc [Ha1 Hb1] [Ha2 Hb2].
        split; [by eapply extends_with_trans | by eapply browser_kept_trans].
      + intros elements. by apply click_elements_events. }
  destruct (Hkept w1) as [Hcalls Hd].
  destruct (reveal_clicks keywords w1) as [r w2] eqn:Hreveal.
  cbn [fst snd] in *. subst r.
  rewrite (bind_returns _ _ _ _ _ Hreveal).
  split; [reflexivity|]. cbn [sleep snd w_calls w_csv w_io w_driver].
  split; [exact Hcalls|]. split; [exact Hcsv|]. split; [exact Hio|].
  intros Hsome. destruct (Hd Hsome) as [d2 ->]. by eexists.
Qed.

(** A request with a browser reads the page after the reveal clicks. *)
Lemma scrape_current_reads_page w :
  is_Some (w_driver w) →
  scrape_current w
  = try_except read_page_and_extract request_handler (after_reveal w).
Proof.
  intros [d Hd]. unfold scrape_current. rewrite Hd.
  destruct (after_reveal_facts w) as (Hrun & _).
  unfold try_except at 1 2.
  set (keywords := ["Show Number"; "View"; "Call"; "Contact"; "WhatsApp"]) in *.
  assert (∀ rest : M response_body,
            (print LogScrapeStarted;; reveal_clicks keywords;; sleep 1000;; rest) w
            = rest (after_reveal w)) as Hprefix.
  { intros rest. revert Hrun. unfold mbind, M_bind, bind.
    destruct (print LogScrapeStarted w) as [[e1|[]] w1]; [done|].
    destruct (reveal_clicks keywords w1) as [[e2|[]] w2]; [done|].
    destruct (sleep 1000 w2) as [[e3|[]] w3]; [done|].
    by intros [= ->]. }
  rewrite Hprefix. reflexivity.
Qed.

(** X15: a request that fails says how.  Without a browser it raises
    status 400 and changes nothing.  With one, every [Exception] raised
    on the way comes out as status 500 with the text of that exception
    as detail, after the error and the traceback are printed; only an
    error that is no [Exception] comes out as it is. *)
Theorem scrape_current_errors (w : World) (e : exn) (w' : World) :
  scrape_current w = (inl e, w') →
  (w_driver w = None
   ∧ e = Exn (HTTPException 400) "Browser not open." ∧ w' = w)
  ∨ (is_Some (w_driver w)
     ∧ ∃ cause,
         is_Exception cause = true
         ∧ e = Exn (HTTPException 500) (str_exn cause)
         ∧ ∃ before,
             w_trace w'
             = before ++ [EvPrint (LogError cause); EvPrint LogTraceback])
  ∨ (is_Some (w_driver w) ∧ is_Exception e = false).
Proof.
  destruct (w_driver w) as [d|] eqn:Hd.
  - rewrite scrape_current_reads_page by (by rewrite Hd).
    unfold try_except.
    destruct (read_page_and_extract (after_reveal w)) as [[cause|b] w1];
      [|done].
    destruct (is_Exception cause) eqn:Hexc.
    + rewrite request_handler_run by done. intros [= <- <-].
      right. left. split; [done|]. exists cause. split; [done|].
      split; [done|]. by eexists.
    + unfold request_handler. rewrite Hexc. intros [= <- <-].
      right. right. by split.
  - unfold scrape_current. rewrite Hd. intros [= <- <-]. by left.
Qed.


End RequestRuns.

Section WriteFailure.
Context `{Capabilities}.


End WriteFailure.

Section RequestFailures.
Context `{Capabilities}.

(** X17: a browser that is there but does not answer: when the URL of
    the page cannot be read, the request fails with status 500 and the
    text of that error, not with the status 400 of a missing browser; the
    model is not invoked and the store is left as it was. *)
Theorem scrape_current_dead_browser (w : World) page e :
  is_Some (w_driver w) →
  w_driver (after_reveal w) = Some page →
  current_url page = inl e →
  is_Exception e = true →
  scrape_current w
  = (inl (Exn (HTTPException 500) (str_exn e)),
     add_trace [EvPrint (LogError e); EvPrint LogTraceback] (after_reveal w))
  ∧ w_calls (snd (scrape_current w)) = w_calls w
  ∧ w_csv (snd (scrape_current w)) = w_csv w.
Proof.
  intros Hsome Hpage Hurl Hexc.
  destruct (after_reveal_facts w) as (_ & Hcalls & Hcsv & _).
  assert (scrape_current w
          = (inl (Exn (HTTPException 500) (str_exn e)),
             add_trace [EvPrint (LogError e); EvPrint LogTraceback]
                       (after_reveal w))) as Hrun.
  { rewrite scrape_current_reads_page by done.
    unfold try_except, read_page_and_extract.
    rewrite (bind_raises _ _ _ _ _ (on_driver_run _ _ _ _ Hpage Hurl)).
    by apply request_handler_run. }
  by rewrite Hrun.
Qed.

(** X18: an exhausted quota at the level of the request: when the page
    can be read and every invocation of the model fails with a quota
    error, the request fails with status 500 and the text of the
    invoker's own error, after two invocations and 35 seconds of waiting;
    no row is written. *)
Theorem scrape_current_out_of_quota (w : World) page url raw_html :
  is_Some (w_driver w) →
  w_driver (after_reveal w) = Some page →
  current_url page = inr url →
  page_source page = inr raw_html →
  (∀ n, ∃ e, generate_content n (build_prompt (clean_html (Some raw_html)))
             = inl e
             ∧ is_Exception e = true ∧ is_quota_error e = true) →
  let w' := snd (scrape_current w) in
  fst (scrape_current w)
  = inl (Exn (HTTPException 500)
             "Failed to get response from Gemini (Quota Exceeded).")
  ∧ w_calls w' = S (S (w_calls w))
  ∧ w_clock w' = w_clock (after_reveal w) + 35000
  ∧ w_csv w' = w_csv w.
Proof.
  intros Hsome Hpage Hurl Hsrc Hfail. cbv zeta.
  rewrite scrape_current_reads_page by done.
  destruct (after_reveal_facts w) as (_ & Hcalls & Hcsv & _).
  set (w3 := after_reveal w) in *.
  unfold try_except, read_page_and_extract.
  rewrite (bind_returns _ _ _ _ _ (on_driver_run _ _ _ _ Hpage Hurl)).
  rewrite (bind_returns _ _ _ _ _ (on_driver_run _ _ _ _ Hpage Hsrc)).
  set (prompt := build_prompt (clean_html (Some raw_html))) in *.
  set (w4 := snd (print (LogAnalyzing (String.length (clean_html (Some raw_html)))) w3)).
  rewrite (bind_returns _ _ _ tt w4) by done.
  destruct (Hfail (w_calls w4)) as (e0 & Hgen0 & Hexc0 & Hquota0).
  destruct (Hfail (S (w_calls w4))) as (e1 & Hgen1 & Hexc1 & Hquota1).
  assert (safe_generate_content prompt w4
          = (inl (Exn PlainException
                    "Failed to get response from Gemini (Quota Exceeded)."),
             waited 30 (invoked prompt (waited 5 (invoked prompt w4)))))
    as Hsafe.
  { unfold safe_generate_content. cbn [length seq].
    rewrite (attempt_loop_quota _ _ _ _ _ e0 5) by done.
    rewrite (attempt_loop_quota _ _ _ _ _ e1 30) by done.
    reflexivity. }
  rewrite (bind_raises _ _ _ _ _ Hsafe).
  rewrite request_handler_run by done.
  subst w4. cbn. rewrite Hcalls, Hcsv. repeat split; lia.
Qed.

(** X19: an answer of the model that does not decode: when the page can
    be read and the model answers, but [json.loads] raises on the
    answer, the request fails with status 500 and the text of the
    decoder's error, after one invocation; no row is written. *)
Theorem scrape_current_bad_json (w : World) page url raw_html response e :
  is_Some (w_driver w) →
  w_driver (after_reveal w) = Some page →
  current_url page = inr url →
  page_source page = inr raw_html →
  generate_content (w_calls w) (build_prompt (clean_html (Some raw_html)))
    = inr response →
  json_loads (json_text response) = inl e →
  is_Exception e = true →
  let w' := snd (scrape_current w) in
  fst (scrape_current w) = inl (Exn (HTTPException 500) (str_exn e))
  ∧ w_calls w' = S (w_calls w)
  ∧ w_csv w' = w_csv w.
Proof.
  intros Hsome Hpage Hurl Hsrc Hgen Hjson Hexc. cbv zeta.
  rewrite scrape_current_reads_page by done.
  destruct (after_reveal_facts w) as (_ & Hcalls & Hcsv & _).
  set (w3 := after_reveal w) in *.
  unfold try_except, read_page_and_extract.
  rewrite (bind_returns _ _ _ _ _ (on_driver_run _ _ _ _ Hpage Hurl)).
  rewrite (bind_returns _ _ _ _ _ (on_driver_run _ _ _ _ Hpage Hsrc)).
  set (prompt := build_prompt (clean_html (Some raw_html))) in *.
  set (w4 := snd (print (LogAnalyzing (String.length (clean_html (Some raw_html)))) w3)).
  rewrite (bind_returns _ _ _ tt w4) by done.
  assert (safe_generate_content prompt w4 = (inr response, invoked prompt w4))
    as Hsafe.
  { unfold safe_generate_content. cbn [length seq].
    apply attempt_loop_success. subst w4. cbn [print emit snd w_calls].
    by rewrite Hcalls. }
  rewrite (bind_returns _ _ _ _ _ Hsafe).
  rewrite (bind_raises _ _ _ e (invoked prompt w4))
    by (unfold lift; by rewrite Hjson).
  rewrite request_handler_run by done.
  subst w4. cbn. by rewrite Hcalls, Hcsv.
Qed.

Lemma clean_html_length raw_html :
  (String.length (clean_html raw_html) ≤ 25000)%nat.
Proof.
  destruct raw_html as [[|c rest]|]; unfold clean_html;
    try (cbn [String.length]; apply Nat.le_0_l).
  rewrite slice_to_length. apply Nat.le_min_l.
Qed.

Lemma extends_with_weaken (P Q : event → Prop) w w' :
  (∀ ev, P ev → Q ev) → extends_with P w w' → extends_with Q w w'.
Proof.
  intros Himp (evs & Htr & Hall). exists evs. split; [exact Htr|].
  by eapply Forall_impl.
Qed.

Lemma attempt_loop_only_prompt wait_times attempts prompt :
  steps (extends_with (only_prompt prompt))
        (attempt_loop wait_times attempts prompt).
Proof.
  induction attempts as [|attempt rest IH]; cbn [attempt_loop].
  - apply steps_raise, extends_with_refl.
  - apply steps_try; [apply extends_with_trans | |].
    + intros w. exists [EvGenerate prompt]. split; [done | by constructor].
    + intros e. destruct (is_Exception e);
        [|apply steps_raise, extends_with_refl].
      destruct (is_quota_error e); [|apply steps_raise, extends_with_refl].
      apply steps_bind; [apply extends_with_trans | |].
      { apply steps_list_index, extends_with_refl. }
      intros wait. apply steps_bind; [apply extends_with_trans | |].
      { by apply extends_print. }
      intros _. apply steps_bind; [apply extends_with_trans | |].
      { by apply extends_sleep. }
      intros _. exact IH.
Qed.

(** X20: the model sees nothing but the page: every prompt a request
    sends is the fixed instruction around the cleaned text of some page
    source, and so is never longer than 465 + 25,000 characters. *)
Theorem scrape_current_prompts (w : World) :
  ∃ evs,
    w_trace (snd (scrape_current w)) = w_trace w ++ evs
    ∧ Forall (fun ev =>
                ∀ prompt, ev = EvGenerate prompt →
                  (∃ raw_html,
                      prompt = build_prompt (clean_html (Some raw_html)))
                  ∧ (String.length prompt ≤ 465 + 25000)%nat)
             evs.
Proof.
  cut (extends_with prompt_from_page w (snd (scrape_current w))).
  { intros (evs & Htr & Hall). exists evs. split; [exact Htr|].
    eapply Forall_impl; [exact Hall|].
    intros ev Hev prompt ->. destruct Hev as (raw_html & ->).
    split; [by eexists|]. rewrite build_prompt_length.
    apply Nat.add_le_mono_l, clean_html_length. }
  unfold scrape_current. destruct (w_driver w); [|apply extends_with_refl].
  revert w. apply steps_try; [apply extends_with_trans | |].
  - apply steps_bind; [apply extends_with_trans | by apply extends_print |].
    intros _. apply steps_bind; [apply extends_with_trans | |].
    { apply steps_reveal_clicks;
        [apply extends_with_refl | apply extends_with_trans |].
      intros elements.
      apply (steps_weaken
               (fun w w' => extends_with prompt_from_page w w'
                            ∧ browser_kept w w')).
      - by intros w0 w1 [Hext _].
      - by apply click_elements_events. }
    intros _. apply steps_bind;
      [apply extends_with_trans | by apply extends_sleep |].
    intros _. apply steps_bind;
      [apply extends_with_trans | apply steps_on_driver, extends_with_refl |].
    intros url. apply steps_bind;
      [apply extends_with_trans | apply steps_on_driver, extends_with_refl |].
    intros raw_html. apply steps_bind;
      [apply extends_with_trans | by apply extends_print |].
    intros _. apply steps_bind; [apply extends_with_trans | |].
    { apply (steps_weaken
               (extends_with
                  (only_prompt (build_prompt (clean_html (Some raw_html)))))).
      - intros w0 w1. apply extends_with_weaken.
        intros [| |p|]; unfold only_prompt, prompt_from_page; try done.
        intros ->. by eexists.
      - apply attempt_loop_only_prompt. }
    intros response. apply steps_bind;
      [apply extends_with_trans | apply steps_lift, extends_with_refl |].
    intros parsed. apply steps_bind;
      [apply extends_with_trans | by apply extends_save |].
    intros _. apply steps_ret, extends_with_refl.
  - intros e. destruct (is_Exception e);
      [|apply steps_raise, extends_with_refl].
    apply steps_bind; [apply extends_with_trans | by apply extends_print |].
    intros _. apply steps_bind;
      [apply extends_with_trans | by apply extends_print |].
    intros _. apply steps_raise, extends_with_refl.
Qed.

End RequestFailures.

(** ** The code fences *)

Lemma prefix_cons a needle b hay :
  String.prefix (String a needle) (String b hay)
  = if ascii_dec a b then String.prefix needle hay else false.
Proof. reflexivity. Qed.

Lemma prefix_empty needle :
  String.prefix needle EmptyString = true → needle = EmptyString.
Proof. by destruct needle. Qed.

Lemma contains_cons needle c hay :
  PyStr.contains needle (String c hay)
  = String.prefix needle (String c hay) || PyStr.contains needle hay.
Proof. reflexivity. Qed.

Lemma contains_lstrip needle s :
  PyStr.contains needle (PyStr.lstrip s) = true →
  PyStr.contains needle s = true.
Proof.
  induction s as [|c rest IH]; [done|]. cbn [PyStr.lstrip].
  destruct (PyStr.isspace c); [|done].
  intros Hin. rewrite contains_cons, IH by done. apply orb_true_r.
Qed.

Lemma prefix_rstrip needle s :
  String.prefix needle (PyStr.rstrip s) = true →
  String.prefix needle s = true.
Proof.
  revert needle. induction s as [|c rest IH]; intros needle; [done|].
  destruct needle as [|a needle]; [done|].
  cbn [PyStr.rstrip]. destruct (PyStr.rstrip rest) as [|k kept] eqn:Hkept.
  - destruct (PyStr.isspace c); [done|].
    rewrite !prefix_cons. destruct (ascii_dec a c); [|done].
    intros ->%prefix_empty. by destruct rest.
  - rewrite !prefix_cons. destruct (ascii_dec a c); [|done]. apply IH.
Qed.

Lemma contains_rstrip needle s :
  PyStr.contains needle (PyStr.rstrip s) = true →
  PyStr.contains needle s = true.
Proof.
  induction s as [|c rest IH]; [done|].
  intros Hin. rewrite contains_cons. apply orb_true_iff.
  destruct (PyStr.rstrip (String c rest)) as [|c' kept] eqn:Hstrip.
  - left. cbn [PyStr.contains] in Hin. rewrite orb_false_r in Hin.
    apply prefix_empty in Hin as ->. reflexivity.
  - rewrite contains_cons in Hin. apply orb_true_iff in Hin as [Hpre|Hlater].
    + left. apply prefix_rstrip. by rewrite Hstrip.
    + cbn [PyStr.rstrip] in Hstrip.
      destruct (PyStr.rstrip rest) as [|k kept'] eqn:Hkept.
      * destruct (PyStr.isspace c); [done|]. injection Hstrip as <- <-.
        cbn [PyStr.contains] in Hlater. rewrite orb_false_r in Hlater.
        apply prefix_empty in Hlater as ->. by left.
      * injection Hstrip as <- <-. right. by apply IH.
Qed.

Lemma contains_strip needle s :
  PyStr.contains needle (PyStr.strip s) = true →
  PyStr.contains needle s = true.
Proof. intros Hin. by apply contains_lstrip, contains_rstrip. Qed.

(** What is left of a string when the fences are taken out starts with
    a backtick, or with two, only if the string did. *)
Lemma prefix_nil hay : String.prefix EmptyString hay = true.
Proof. by destruct hay. Qed.

Lemma unfenced_starts_backtick s :
  String.prefix "`" (PyStr.replace_go "```" EmptyString 0 s) = true →
  String.prefix "`" s = true.
Proof.
  destruct s as [|c rest]; [done|]. cbn [PyStr.replace_go].
  destruct (String.prefix "```" (String c rest)) eqn:Hfence.
  - intros _. rewrite prefix_cons in *.
    destruct (ascii_dec _ c); [apply prefix_nil | done].
  - rewrite !prefix_cons.
    destruct (ascii_dec _ c); [intros _; apply prefix_nil | done].
Qed.

Lemma unfenced_starts_two_backticks s :
  String.prefix "``" (PyStr.replace_go "```" EmptyString 0 s) = true →
  String.prefix "``" s = true.
Proof.
  destruct s as [|c rest]; [done|]. cbn [PyStr.replace_go].
  destruct (String.prefix "```" (String c rest)) eqn:Hfence.
  - intros _. rewrite prefix_cons in *.
    destruct (ascii_dec _ c); [|done].
    destruct rest as [|c2 rest]; [done|]. rewrite prefix_cons in *.
    destruct (ascii_dec _ c2); [apply prefix_nil | done].
  - rewrite !prefix_cons. destruct (ascii_dec _ c); [|done].
    apply unfenced_starts_backtick.
Qed.

Lemma unfenced_has_no_fence s skip :
  PyStr.contains "```" (PyStr.replace_go "```" EmptyString skip s) = false.
Proof.
  revert skip. induction s as [|c rest IH]; intros skip; [done|].
  cbn [PyStr.replace_go]. destruct skip as [|k]; [|apply IH].
  destruct (String.prefix "```" (String c rest)) eqn:Hfence.
  - change (EmptyString +:+ ?x) with x. apply IH.
  - rewrite contains_cons, IH, orb_false_r.
    rewrite prefix_cons in *. destruct (ascii_dec _ c); [|done].
    destruct (String.prefix "``" (PyStr.replace_go "```" EmptyString 0 rest))
      eqn:Htwo; [|done].
    apply unfenced_starts_two_backticks in Htwo. congruence.
Qed.

(** X21: whatever the model answers, the text handed to [json.loads]
    holds no code fence: after the two replacements and the strip no
    run of three backticks is left, not even one put together from the
    backticks around a removed fence. *)
Theorem json_text_no_fence (response : string) :
  PyStr.contains "```" (json_text response) = false.
Proof.
  unfold json_text.
  destruct (PyStr.contains "```" (PyStr.strip _)) eqn:Hin; [|done].
  apply contains_strip in Hin. unfold PyStr.replace at 1 in Hin.
  by rewrite unfenced_has_no_fence in Hin.
Qed.

(** ** The launch endpoint *)

Section LaunchFacts.
Context `{Launcher}.

Lemma probe_live w d url :
  w_driver w = Some d → current_url d = inr url →
  probe_open_browser w = (inr (Some (Message "Browser is already open.")), w).
Proof.
  intros Hd Hurl. unfold probe_open_browser. rewrite Hd.
  unfold try_except.
  by rewrite (bind_returns _ _ _ _ _ (on_driver_run _ _ _ _ Hd Hurl)).
Qed.

Lemma probe_dead w :
  no_live_browser w → probe_open_browser w = (inr None, with_driver None w).
Proof.
  intros [Hnone | (d & e & Hd & Hurl)]; unfold probe_open_browser.
  - rewrite Hnone. destruct w; cbn in *. by subst.
  - rewrite Hd. unfold try_except.
    by rewrite (bind_raises _ _ _ _ _ (on_driver_run _ _ _ _ Hd Hurl)).
Qed.

Lemma launch_after_probe w :
  no_live_browser w →
  launch_browser w
  = try_except
      (d ← lift (Chrome launch_options);
       set_driver (Some d);;
       navigate "https://www.google.com";;
       mret (Message "Browser launched!"))
      (fun e =>
         if is_Exception e
         then raise (Exn (HTTPException 500) (str_exn e))
         else raise e)
      (with_driver None w).
Proof.
  intros Hdead. unfold launch_browser.
  by rewrite (bind_returns _ _ _ _ _ (probe_dead w Hdead)).
Qed.


(** X23: without a browser to reuse, when Chrome starts with the
    program's options (not headless, no sandbox, the profile directory
    under the working directory) and the start page loads, the handle is
    the new browser on that page and nothing else has changed. *)
Theorem launch_browser_launches (w : World) d0 d1 :
  no_live_browser w →
  Chrome (Options false
            ["--no-sandbox";
             "--user-data-dir=" +:+ cwd_join "chrome_profile"]) = inr d0 →
  driver_get d0 "https://www.google.com" = (inr tt, d1) →
  launch_browser w
  = (inr (Message "Browser launched!"), with_driver (Some d1) w).
Proof.
  intros Hdead Hchrome Hget. rewrite launch_after_probe by done.
  unfold try_except, launch_options, lift, mbind, M_bind, bind, set_driver,
    navigate.
  rewrite Hchrome. cbn [w_driver]. by rewrite Hget.
Qed.

(** X24: when Chrome does not start, the request fails with status 500
    and the text of the error, and there is no handle afterwards: a
    handle that did not answer the probe is gone too. *)
Theorem launch_browser_cannot_start (w : World) e :
  no_live_browser w →
  Chrome launch_options = inl e →
  is_Exception e = true →
  launch_browser w
  = (inl (Exn (HTTPException 500) (str_exn e)), with_driver None w).
Proof.
  intros Hdead Hchrome Hexc. rewrite launch_after_probe by done.
  unfold try_except, lift, mbind, M_bind, bind.
  by rewrite Hchrome, Hexc.
Qed.

(** X25: when Chrome starts but the start page does not load, the
    request fails with status 500, and yet the new browser is the handle
    from then on: the assignment comes before the navigation. *)
Theorem launch_browser_cannot_navigate (w : World) d0 d1 e :
  no_live_browser w →
  Chrome launch_options = inr d0 →
  driver_get d0 "https://www.google.com" = (inl e, d1) →
  is_Exception e = true →
  launch_browser w
  = (inl (Exn (HTTPException 500) (str_exn e)), with_driver (Some d1) w).
Proof.
  intros Hdead Hchrome Hget Hexc. rewrite launch_after_probe by done.
  unfold try_except, lift, mbind, M_bind, bind, set_driver, navigate.
  rewrite Hchrome. cbn [w_driver]. by rewrite Hget, Hexc.
Qed.

Lemma scrape_current_not_400 w e w' :
  is_Some (w_driver w) →
  scrape_current w = (inl e, w') →
  exn_cls e ≠ HTTPException 400.
Proof.
  intros Hsome. rewrite scrape_current_reads_page by done.
  unfold try_except.
  destruct (read_page_and_extract (after_reveal w)) as [[cause|b] w1]; [|done].
  destruct (is_Exception cause) eqn:Hexc.
  - rewrite request_handler_run by done. by intros [= <- _].
  - unfold request_handler. rewrite Hexc. intros [= <- _].
    unfold is_Exception in Hexc. by destruct (exn_cls cause).
Qed.

(** X26: [launch_browser] touches the handle and nothing else: store,
    clock, count of model calls and trace are as before, whatever
    happens.  When it returns, its message is one of two, there is a
    handle, and the request that follows does not fail with the status
    400 of a missing browser. *)
Theorem launch_browser_then_request (w : World) :
  let w' := snd (launch_browser w) in
  w_csv w' = w_csv w ∧ w_io w' = w_io w ∧ w_clock w' = w_clock w
  ∧ w_calls w' = w_calls w ∧ w_trace w' = w_trace w
  ∧ ∀ body,
      fst (launch_browser w) = inr body →
      (message body = "Browser is already open."
       ∨ message body = "Browser launched!")
      ∧ is_Some (w_driver w')
      ∧ ∀ e w'', scrape_current w' = (inl e, w'') →
                 exn_cls e ≠ HTTPException 400.
Proof.
  cbv zeta.
  assert (w_csv (snd (launch_browser w)) = w_csv w
          ∧ w_io (snd (launch_browser w)) = w_io w
          ∧ w_clock (snd (launch_browser w)) = w_clock w
          ∧ w_calls (snd (launch_browser w)) = w_calls w
          ∧ w_trace (snd (launch_browser w)) = w_trace w
          ∧ ∀ body,
              fst (launch_browser w) = inr body →
              (message body = "Browser is already open."
               ∨ message body = "Browser launched!")
              ∧ is_Some (w_driver (snd (launch_browser w)))) as Hmain.
  { assert (no_live_browser w →
            w_csv (snd (launch_browser w)) = w_csv w
            ∧ w_io (snd (launch_browser w)) = w_io w
            ∧ w_clock (snd (launch_browser w)) = w_clock w
            ∧ w_calls (snd (launch_browser w)) = w_calls w
            ∧ w_trace (snd (launch_browser w)) = w_trace w
            ∧ ∀ body,
                fst (launch_browser w) = inr body →
                (message body = "Browser is already open."
                 ∨ message body = "Browser launched!")
                ∧ is_Some (w_driver (snd (launch_browser w)))) as Hfresh.
    { intros Hdead. rewrite launch_after_probe by done.
      unfold try_except, lift, mbind, M_bind, bind, set_driver, navigate.
      destruct (Chrome launch_options) as [e0|d0].
      { destruct (is_Exception e0); repeat (split; [reflexivity|]);
          intros body Hbody; discriminate Hbody. }
      cbn [w_driver].
      destruct (driver_get d0 "https://www.google.com") as [[e1|[]] d1].
      { destruct (is_Exception e1); repeat (split; [reflexivity|]);
          intros body Hbody; discriminate Hbody. }
      repeat (split; [reflexivity|]). intros body Hbody.
      injection Hbody as <-. split; [by right | by eexists]. }
    destruct (w_driver w) as [d|] eqn:Hd; [|apply Hfresh; by left].
    destruct (current_url d) as [e|url] eqn:Hurl;
      [apply Hfresh; right; eauto|].
    unfold launch_browser.
    rewrite (bind_returns _ _ _ _ _ (probe_live w d url Hd Hurl)).
    repeat (split; [reflexivity|]). intros body Hbody.
    injection Hbody as <-. split; [by left|].
    change (is_Some (w_driver w)). rewrite Hd. by eexists. }
  destruct Hmain as (Hcsv & Hio & Hclock & Hcalls & Htrace & Hbody).
  repeat (split; [done|]).
  intros body Hret. destruct (Hbody body Hret) as [Hmsg Hsome].
  split; [exact Hmsg|]. split; [exact Hsome|].
  intros e w''. by apply scrape_current_not_400.
Qed.

End LaunchFacts.

(** ** Runs on the concrete browser *)

Import Fixture.



(** A model that is always out of quota is invoked twice. *)
Lemma safe_generate_content_out_of_quota_witness :
  (∀ n, ∃ e, model_out_of_quota n "p" = inl e
             ∧ is_Exception e = true
             ∧ is_quota_error e = true)
  ∧ fst (safe_generate_content "p" (world model_out_of_quota Writable))
    = inl failed
  ∧ w_trace (snd (safe_generate_content "p" (world model_out_of_quota Writable)))
    = [ EvGenerate "p"; EvPrint (LogTokenLimit 5); EvSleep 5000;
        EvGenerate "p"; EvPrint (LogTokenLimit 30); EvSleep 30000 ]
  ∧ w_calls (snd (safe_generate_content "p" (world model_out_of_quota Writable)))
    = 2%nat.
Proof.
  assert (∀ n, ∃ e, model_out_of_quota n "p" = inl e
                    ∧ is_Exception e = true
                    ∧ is_quota_error e = true) as Hfail.
  { intros n. eexists. split; [reflexivity|]. split; reflexivity. }
  split; [exact Hfail|].
  rewrite (safe_generate_content_out_of_quota
             (H:=capabilities model_out_of_quota) "p"
             (world model_out_of_quota Writable) Hfail).
  repeat split.
Defined.

(** An unreachable model is invoked once and its error comes back. *)
Lemma safe_generate_content_propagates_witness :
  PyStr.contains "429" "503 connection reset" = false
  ∧ PyStr.contains "quota" (PyStr.lower "503 connection reset") = false
  ∧ safe_generate_content "p" (world model_unreachable Writable)
    = (inl (Exn (LibraryError "ServiceUnavailable") "503 connection reset"),
       mkWorld (H:=capabilities model_unreachable)
               (Some listing_page) None Writable 0 1%nat [EvGenerate "p"]).
Proof.
  split; [reflexivity|]. split; [reflexivity|].
  exact (safe_generate_content_propagates
           (H:=capabilities model_unreachable) "p"
           (world model_unreachable Writable) _ eq_refl eq_refl eq_refl).
Defined.

(** Without a browser nothing happens but the error. *)
Lemma scrape_current_no_browser_witness :
  w_driver (world_no_browser model_object) = None
  ∧ scrape_current (world_no_browser model_object)
    = (inl (Exn (HTTPException 400) "Browser not open."),
       world_no_browser model_object).
Proof.
  split; [reflexivity|].
  exact (proj1 (scrape_current_no_browser (H:=capabilities model_object)
                  (world_no_browser model_object)) eq_refl).
Defined.

(** The link of the listing page is passed over. *)
Lemma reveal_clicks_skip_links_witness :
  w_driver (world model_object Writable) = Some listing_page
  ∧ tag_name (Capabilities:=capabilities model_object)
      listing_page view_link = inr "A"
  ∧ PyStr.lower "A" = "a"
  ∧ click_elements (H:=capabilities model_object)
      [view_link; call_span] (world model_object Writable)
    = click_elements (H:=capabilities model_object)
        [call_span] (world model_object Writable).
Proof.
  split; [reflexivity|]. split; [reflexivity|]. split; [reflexivity|].
  exact (proj2 (proj2 (reveal_clicks_skip_links
                         (H:=capabilities model_object)))
           (world model_object Writable) listing_page view_link [call_span]
           "A" eq_refl eq_refl eq_refl).
Defined.

(** A model that answers with an array: the request answers with
    success, and the store holds the header alone. *)
Lemma save_to_csv_total_witness :
  fst (scrape_current (world model_array Writable))
    = inr (Body "success" (JArr []))
  ∧ ((∀ members, JArr [] ≠ JObj members)
     ∨ w_io (world model_array Writable) ≠ Writable)
  ∧ w_csv (snd (scrape_current (world model_array Writable)))
    = Some [header_row].
Proof.
  assert ((∀ members, JArr [] ≠ JObj members)
          ∨ w_io (world model_array Writable) ≠ Writable) as Hcase
    by (left; discriminate).
  split; [vm_compute; reflexivity|]. split; [exact Hcase|].
  refine (proj2 (proj2 (save_to_csv_total (H:=capabilities model_array))
                   (world model_array Writable) (Body "success" (JArr []))
                   (snd (scrape_current (world model_array Writable)))
                   _ Hcase)).
  vm_compute. reflexivity.
Defined.

(** On the listing page the button and the span are clicked, in that
    order, and the link is not. *)
Example reveal_clicks_listing_page :
  pg_clicked <$> w_driver (snd (scrape_current (world model_object Writable)))
  = Some ["Show Number"; "Call agent"].
Proof. vm_compute. reflexivity. Qed.

(** The compressor on the listing page keeps the agent's line only. *)
Example clean_html_listing_page :
  clean_html (H:=capabilities model_object) (Some listing_html)
  = "Agent: Jane Tan".
Proof. vm_compute. reflexivity. Qed.


(** ** More runs *)

Import MoreFixture.


(** A key the store does not read makes no difference. *)
Lemma save_to_csv_reads_field_keys_witness :
  (∀ key, key ∈ FIELD_KEYS → jane !! key = jane_more !! key)
  ∧ w_csv (snd (save_to_csv (JObj jane) url (world model_object Writable)))
    = w_csv (snd (save_to_csv (JObj jane_more) url
                    (world model_object Writable))).
Proof.
  assert (∀ key, key ∈ FIELD_KEYS → jane !! key = jane_more !! key) as Hagree.
  { intros key Hkey. unfold jane_more. symmetry. apply lookup_insert_ne.
    intros <-. revert Hkey. apply (bool_decide_unpack _). vm_compute.
    exact I. }
  split; [exact Hagree|].
  exact (save_to_csv_reads_field_keys (H:=capabilities model_object)
           jane jane_more url (world model_object Writable) Hagree).
Defined.

(** A locked file: [init_csv] warns and returns. *)
Lemma init_csv_raises_witness :
  w_csv (world model_object Locked) = None
  ∧ w_io (world model_object Locked) = Locked
  ∧ fst (init_csv (world model_object Locked)) = inr tt.
Proof.
  split; [reflexivity|]. split; [reflexivity|].
  rewrite (proj2 (init_csv_raises (H:=capabilities model_object)
                    (world model_object Locked)) eq_refl eq_refl).
  reflexivity.
Defined.

(** The text of the listing page ends with the agent's name. *)
Lemma clean_html_trimmed_witness :
  (String.length
     (get_text " "
        (decompose_all BLOAT_TAGS
           (decompose_all JUNK_TAGS (fx_parse_html listing_html)))) ≤ 25000)%nat
  ∧ not_space_at
      (last_char (clean_html (H:=capabilities model_object)
                    (Some listing_html))).
Proof.
  assert (String.length
            (get_text " "
               (decompose_all BLOAT_TAGS
                  (decompose_all JUNK_TAGS (fx_parse_html listing_html))))
          ≤ 25000)%nat as Hfits.
  { apply Nat.leb_le. vm_compute. reflexivity. }
  split; [exact Hfits|].
  exact (proj2 (clean_html_trimmed (H:=capabilities model_object)
                  (Some listing_html)) _ _ eq_refl Hfits).
Defined.

(** A model that is out of quota once answers at the second try. *)
Lemma safe_generate_content_recovers_witness :
  is_quota_error (Exn (LibraryError "ResourceExhausted")
                      "429 You exceeded your current quota") = true
  ∧ fst (safe_generate_content "p" (world model_flaky Writable)) = inr "{}"
  ∧ w_calls (snd (safe_generate_content "p" (world model_flaky Writable)))
    = 2%nat.
Proof.
  split; [reflexivity|].
  rewrite (safe_generate_content_recovers (H:=capabilities model_flaky)
             "p" (world model_flaky Writable)
             (Exn (LibraryError "ResourceExhausted")
                  "429 You exceeded your current quota")
             "{}" eq_refl eq_refl eq_refl eq_refl).
  split; reflexivity.
Defined.

(** Mixed case is taken for a quota error. *)
Lemma is_quota_error_any_case_witness :
  PyStr.lower "QuOtA" = "quota"
  ∧ PyStr.contains "QuOtA" "Daily QuOtA used up" = true
  ∧ is_quota_error (Exn (LibraryError "ResourceExhausted")
                        "Daily QuOtA used up") = true.
Proof.
  split; [reflexivity|]. split; [reflexivity|].
  exact (is_quota_error_any_case
           (Exn (LibraryError "ResourceExhausted") "Daily QuOtA used up")
           "QuOtA" (or_introl eq_refl) eq_refl).
Defined.

(** An unreachable model: the request fails with status 500 and the
    model's text. *)
Lemma scrape_current_errors_witness :
  fst (scrape_current (world model_unreachable Writable))
    = inl (Exn (HTTPException 500) "503 connection reset")
  ∧ ∃ cause,
      is_Exception cause = true
      ∧ Exn (HTTPException 500) "503 connection reset"
        = Exn (HTTPException 500) (str_exn cause).
Proof.
  assert (scrape_current (world model_unreachable Writable)
          = (inl (Exn (HTTPException 500) "503 connection reset"),
             snd (scrape_current (world model_unreachable Writable))))
    as Hrun by (vm_compute; reflexivity).
  split; [by rewrite Hrun|].
  destruct (scrape_current_errors (H:=capabilities model_unreachable)
              _ _ _ Hrun)
    as [(Hnone & _) | [(_ & cause & Hexc & Hcause & _) | (_ & Hexc)]].
  - discriminate Hnone.
  - exists cause. split; [exact Hexc | exact Hcause].
  - discriminate Hexc.
Defined.


(** A browser whose window was closed: status 500, not 400. *)
Lemma scrape_current_dead_browser_witness :
  is_Some (w_driver (world_dead model_object))
  ∧ w_driver (after_reveal (world_dead model_object)) = Some listing_page
  ∧ fst (scrape_current (world_dead model_object))
    = inl (Exn (HTTPException 500) "chrome not reachable")
  ∧ w_calls (snd (scrape_current (world_dead model_object))) = 0%nat.
Proof.
  assert (is_Some (w_driver (world_dead model_object))) as Hsome
    by (by eexists).
  assert (w_driver (after_reveal (world_dead model_object))
          = Some listing_page) as Hpage by (vm_compute; reflexivity).
  split; [exact Hsome|]. split; [exact Hpage|].
  destruct (scrape_current_dead_browser (H:=capabilities_dead model_object)
              (world_dead model_object) listing_page unreachable
              Hsome Hpage eq_refl eq_refl)
    as (Hrun & Hcalls & _).
  split; [by rewrite Hrun | exact Hcalls].
Defined.

(** A model that is always out of quota: status 500 with the invoker's
    text, two invocations, no file. *)
Lemma scrape_current_out_of_quota_witness :
  w_driver (after_reveal (world model_out_of_quota Writable))
    = Some revealed_page
  ∧ fst (scrape_current (world model_out_of_quota Writable))
    = inl (Exn (HTTPException 500)
               "Failed to get response from Gemini (Quota Exceeded).")
  ∧ w_calls (snd (scrape_current (world model_out_of_quota Writable)))
    = 2%nat
  ∧ w_csv (snd (scrape_current (world model_out_of_quota Writable))) = None.
Proof.
  assert (w_driver (after_reveal (world model_out_of_quota Writable))
          = Some revealed_page) as Hpage by (vm_compute; reflexivity).
  split; [exact Hpage|].
  destruct (scrape_current_out_of_quota (H:=capabilities model_out_of_quota)
              (world model_out_of_quota Writable) revealed_page url
              listing_html (ex_intro _ _ eq_refl) Hpage eq_refl eq_refl)
    as (Hbody & Hcalls & _ & Hcsv).
  { intros n. eexists. split; [reflexivity|]. split; reflexivity. }
  split; [exact Hbody|]. split; [exact Hcalls | exact Hcsv].
Defined.

(** A model that answers in prose: status 500 with the decoder's text. *)
Lemma scrape_current_bad_json_witness :
  json_loads (Capabilities:=capabilities model_prose)
    (json_text "Sorry, I cannot help with that.")
  = inl (Exn (LibraryError "JSONDecodeError") "Expecting value")
  ∧ fst (scrape_current (world model_prose Writable))
    = inl (Exn (HTTPException 500) "Expecting value")
  ∧ w_csv (snd (scrape_current (world model_prose Writable))) = None.
Proof.
  assert (json_loads (Capabilities:=capabilities model_prose)
            (json_text "Sorry, I cannot help with that.")
          = inl (Exn (LibraryError "JSONDecodeError") "Expecting value"))
    as Hjson by (vm_compute; reflexivity).
  assert (w_driver (after_reveal (world model_prose Writable))
          = Some revealed_page) as Hpage by (vm_compute; reflexivity).
  split; [exact Hjson|].
  destruct (scrape_current_bad_json (H:=capabilities model_prose)
              (world model_prose Writable) revealed_page url listing_html
              "Sorry, I cannot help with that."
              (Exn (LibraryError "JSONDecodeError") "Expecting value")
              (ex_intro _ _ eq_refl) Hpage eq_refl eq_refl eq_refl Hjson
              eq_refl)
    as (Hbody & _ & Hcsv).
  split; [exact Hbody | exact Hcsv].
Defined.


(** Without a browser one is started on the start page. *)
Lemma launch_browser_launches_witness :
  no_live_browser (world_no_browser model_object)
  ∧ fst (launch_browser (H0:=LaunchFixture.launcher model_object)
           (world_no_browser model_object))
    = inr (Message "Browser launched!")
  ∧ w_driver (snd (launch_browser (H0:=LaunchFixture.launcher model_object)
                     (world_no_browser model_object)))
    = Some (Page "https://www.google.com" EmptyString [] []).
Proof.
  assert (no_live_browser (world_no_browser model_object)) as Hdead by (by left).
  split; [exact Hdead|].
  rewrite (launch_browser_launches (H0:=LaunchFixture.launcher model_object)
             (world_no_browser model_object) LaunchFixture.blank_page
             (Page "https://www.google.com" EmptyString [] [])
             Hdead eq_refl eq_refl).
  split; reflexivity.
Defined.

(** Chrome does not start: status 500 and no handle. *)
Lemma launch_browser_cannot_start_witness :
  no_live_browser (world_no_browser model_object)
  ∧ launch_browser (H0:=LaunchFixture.launcher_broken model_object)
      (world_no_browser model_object)
    = (inl (Exn (HTTPException 500) "cannot find Chrome binary"),
       world_no_browser model_object).
Proof.
  assert (no_live_browser (world_no_browser model_object)) as Hdead by (by left).
  split; [exact Hdead|].
  exact (launch_browser_cannot_start
           (H0:=LaunchFixture.launcher_broken model_object)
           (world_no_browser model_object)
           (Exn (LibraryError "WebDriverException") "cannot find Chrome binary")
           Hdead eq_refl eq_refl).
Defined.

(** The start page does not load: status 500, and a handle all the
    same. *)
Lemma launch_browser_cannot_navigate_witness :
  no_live_browser (world_no_browser model_object)
  ∧ fst (launch_browser (H0:=launcher_offline model_object)
           (world_no_browser model_object))
    = inl (Exn (HTTPException 500) "net::ERR_NAME_NOT_RESOLVED")
  ∧ w_driver (snd (launch_browser (H0:=launcher_offline model_object)
                     (world_no_browser model_object)))
    = Some LaunchFixture.blank_page.
Proof.
  assert (no_live_browser (world_no_browser model_object)) as Hdead by (by left).
  split; [exact Hdead|].
  rewrite (launch_browser_cannot_navigate (H0:=launcher_offline model_object)
             (world_no_browser model_object) LaunchFixture.blank_page
             LaunchFixture.blank_page
             (Exn (LibraryError "WebDriverException")
                  "net::ERR_NAME_NOT_RESOLVED")
             Hdead eq_refl eq_refl eq_refl).
  split; reflexivity.
Defined.

(** After a launch the request finds a browser. *)
Lemma launch_browser_then_request_witness :
  fst (launch_browser (H0:=LaunchFixture.launcher model_object)
         (world_no_browser model_object))
    = inr (Message "Browser launched!")
  ∧ is_Some
      (w_driver (snd (launch_browser (H0:=LaunchFixture.launcher model_object)
                        (world_no_browser model_object)))).
Proof.
  assert (fst (launch_browser (H0:=LaunchFixture.launcher model_object)
                 (world_no_browser model_object))
          = inr (Message "Browser launched!")) as Hret
    by (vm_compute; reflexivity).
  split; [exact Hret|].
  destruct (launch_browser_then_request
              (H0:=LaunchFixture.launcher model_object)
              (world_no_browser model_object))
    as (_ & _ & _ & _ & _ & Hbody).
  exact (proj1 (proj2 (Hbody _ Hret))).
Defined.


(** A handle that is there but does not answer: the probe of the URL
    fails, and the request does not fail with status 400 nor at once:
    it fails with status 500 after the wait of one second. *)
Lemma scrape_current_dead_handle_not_400 :
  current_url (Capabilities:=capabilities_dead model_object) listing_page
    = inl unreachable
  ∧ fst (scrape_current (world_dead model_object))
    = inl (Exn (HTTPException 500) "chrome not reachable")
  ∧ fst (scrape_current (world_dead model_object))
    ≠ inl (Exn (HTTPException 400) "Browser not open.")
  ∧ w_clock (snd (scrape_current (world_dead model_object))) = 1000.
Proof.
  assert (scrape_current (world_dead model_object)
          = (inl (Exn (HTTPException 500) "chrome not reachable"),
             snd (scrape_current (world_dead model_object))))
    as Hrun by (vm_compute; reflexivity).
  split; [reflexivity|]. split; [by rewrite Hrun|].
  split; [rewrite Hrun; discriminate|].
  vm_compute. reflexivity.
Qed.
